(** * App Store Connect MCP server: the tool-call handler of src/index.ts

    A shallow embedding of [AppStoreConnectServer] (src/index.ts): the token
    issuer [generateToken], the static tool list returned for
    [ListToolsRequestSchema], and the [CallToolRequestSchema] handler with its
    nine [case] blocks and its [catch] block.

    JavaScript values are embedded as the inductive type [Value]; the effects
    of a tool call (reading the key file, signing, the HTTP exchange) are
    recorded in a trace by a small writer/exception monad. *)

From Stdlib Require Import String Ascii List ZArith Lia Bool DecimalString.
Import ListNotations.
Local Open Scope string_scope.
Local Open Scope Z_scope.

(* ===================================================================== *)
(** ** JavaScript values *)
(* ===================================================================== *)

(** The values that reach the handler are decoded JSON (the arguments of a
    request, the body of a response) together with [undefined] and [NaN],
    which the handler's own expressions produce.  Numbers are modelled by
    integers: the numeric arguments of the tools are counts, and a number
    with a fractional part has no value here, so every statement about a
    numeric argument is a statement about integers.  An object is the list
    of its own properties in property order, one entry per key. *)
#[warnings="-register-all"]
Inductive Value : Type :=
| VUndefined
| VNull
| VBool (b : bool)
| VNum (n : Z)
| VNaN
| VStr (s : string)
| VArr (l : list Value)
| VObj (o : list (string * Value)).

Module JS.

(** [ToBoolean]: what [if (v)], [!v] and [v || d] test. *)
Definition truthy (v : Value) : bool :=
  match v with
  | VUndefined | VNull | VNaN => false
  | VBool b => b
  | VNum n => negb (n =? 0)
  | VStr s => negb (s =? "")%string
  | VArr _ | VObj _ => true
  end.

(** [v === undefined || v === null], the test of [?.] and [??]. *)
Definition nullish (v : Value) : bool :=
  match v with
  | VUndefined | VNull => true
  | _ => false
  end.

(** Own-property lookup in an object. *)
Fixpoint lookup (k : string) (o : list (string * Value)) : option Value :=
  match o with
  | [] => None
  | (k', v) :: o' => if (k' =? k)%string then Some v else lookup k o'
  end.

(** [o[k] = v] on an object: replaces the property in place when it
    exists, appends it otherwise. *)
Fixpoint set (k : string) (v : Value) (o : list (string * Value))
  : list (string * Value) :=
  match o with
  | [] => [(k, v)]
  | (k', v') :: o' =>
      if (k' =? k)%string then (k, v) :: o' else (k', v') :: set k v o'
  end.

(** The decimal digits of a natural number. *)
Definition decimal (a : Z) : string := NilZero.string_of_int (Z.to_int a).

(** A number value is a double: [VNum n] stands for the double nearest to
    the integer [n] (ties to even), the value that the literal [n] has.
    Every integer below 2^53 is its own double. *)
Definition nearest_double (a : Z) : Z :=
  if a <? 9007199254740992 then a
  else
    let e := Z.log2 a - 52 in
    let q := a / 2 ^ e in
    let r := a mod 2 ^ e in
    let half := 2 ^ (e - 1) in
    let m := if r <? half then q
             else if half <? r then q + 1
             else if Z.even q then q else q + 1 in
    m * 2 ^ e.

(** Beyond the largest double the value is [Infinity]. *)
Definition is_finite (n : Z) : bool :=
  (Z.abs n <? 9007199254740992)
  || (nearest_double (Z.abs n) <? 2 ^ 1024).

(** [Number::toString] on such a value [v]: the digits [s] (there are [k]
    of them) and the position [n] of the decimal point with [k] as small
    as possible such that [s * 10^(n-k)] is a decimal of the double [v];
    among several, the one closest to [v], and the even one of two. *)
Definition decimal_value (s n k : Z) : Z := s * 10 ^ (n - k).

Definition digit_strings (v n k : Z) : list (Z * Z) :=
  let low := v / 10 ^ (n - k) in
  filter (fun c =>
            (10 ^ (k - 1) <=? fst c) && (fst c <? 10 ^ k)
            && (nearest_double (decimal_value (fst c) n k) =? v))
         [(low, n); (low + 1, n)].

Definition closer (v k : Z) (x y : Z * Z) : bool :=
  let dx := Z.abs (decimal_value (fst x) (snd x) k - v) in
  let dy := Z.abs (decimal_value (fst y) (snd y) k - v) in
  (dx <? dy) || ((dx =? dy) && Z.even (fst x)).

Fixpoint shortest (v n : Z) (ks : list Z) : option (Z * Z * Z) :=
  match ks with
  | [] => None
  | k :: ks' =>
      match (digit_strings v n k ++ digit_strings v (n + 1) k)%list with
      | [] => shortest v n ks'
      | c :: cs =>
          let best :=
            fold_left (fun b x => if closer v k x b then x else b) cs c in
          Some (fst best, snd best, k)
      end
  end.

Definition zeros (n : Z) : string :=
  String.concat "" (repeat "0" (Z.to_nat n)).

(** The digits followed by zeros up to 21 places, the exponent form
    beyond. *)
Definition number_form (s n k : Z) : string :=
  if n <=? 21 then decimal s ++ zeros (n - k)
  else
    match decimal s with
    | String c EmptyString => String c "" ++ "e+" ++ decimal (n - 1)
    | String c rest => String c "" ++ "." ++ rest ++ "e+" ++ decimal (n - 1)
    | EmptyString => ""
    end.

Definition string_of_natural (a : Z) : string :=
  if a <? 9007199254740992 then decimal a
  else
    let v := nearest_double a in
    if 2 ^ 1024 <=? v then "Infinity"
    else
      match shortest v (Z.of_nat (String.length (decimal v)))
              (map Z.of_nat (seq 1 17)) with
      | Some (s, n, k) => number_form s n k
      | None => decimal v
      end.

(** [String(n)] for the number that [VNum n] stands for: plain digits up
    to 2^53, the shortest digits that give the same double beyond (so
    2^64 reads 18446744073709552000 and 10^21 reads 1e+21). *)
Definition string_of_Z (n : Z) : string :=
  if n <? 0 then "-" ++ string_of_natural (- n) else string_of_natural n.

(** [ToString], used by template literals and by [Array.prototype.join]
    on the elements: an array is its elements joined by commas, with
    [null] and [undefined] elements rendered empty. *)
Fixpoint to_string (v : Value) : string :=
  match v with
  | VUndefined => "undefined"
  | VNull => "null"
  | VBool true => "true"
  | VBool false => "false"
  | VNum n => string_of_Z n
  | VNaN => "NaN"
  | VStr s => s
  | VArr l =>
      String.concat ","
        (map (fun x => if nullish x then "" else to_string x) l)
  | VObj _ => "[object Object]"
  end.

(** [arr.join(sep)] on the elements of an array. *)
Definition join (sep : string) (l : list Value) : string :=
  String.concat sep (map (fun x => if nullish x then "" else to_string x) l).

(** Property read [v.k] on a value that is neither [null] nor
    [undefined], for the data properties the handler reads: own
    properties of objects, [length] of arrays and strings.  Primitives
    have none of the other names the handler uses. *)
Definition member (v : Value) (k : string) : Value :=
  match v with
  | VObj o => match lookup k o with Some x => x | None => VUndefined end
  | VArr l => if (k =? "length")%string then VNum (Z.of_nat (List.length l))
              else VUndefined
  | VStr s => if (k =? "length")%string then VNum (Z.of_nat (String.length s))
              else VUndefined
  | _ => VUndefined
  end.

(** Optional chaining [v?.k]. *)
Definition opt_member (v : Value) (k : string) : Value :=
  if nullish v then VUndefined else member v k.

(** Optional element access [v?.[0]]. *)
Definition opt_first (v : Value) : Value :=
  match v with
  | VArr (x :: _) => x
  | VObj o => match lookup "0" o with Some x => x | None => VUndefined end
  | VStr (String c _) => VStr (String c EmptyString)
  | _ => VUndefined
  end.

(** [a ?? b] *)
Definition coalesce (a b : Value) : Value := if nullish a then b else a.

(** [a || b] *)
Definition or_else (a b : Value) : Value := if truthy a then a else b.

End JS.

(* ===================================================================== *)
(** ** [JSON.stringify] *)
(* ===================================================================== *)

Module JSON.

Definition hex_digit (n : N) : ascii :=
  ascii_of_N (if (n <? 10)%N then 48 + n else 87 + n)%N.

Definition dquote : string := String (ascii_of_N 34) "".
Definition backslash : string := String (ascii_of_N 92) "".
Definition newline : string := String (ascii_of_N 10) "".

(** One character of a quoted string ([QuoteJSONString]): the two-character
    escapes, a four-digit unicode escape for the other control characters,
    the character itself otherwise. *)
Definition quote_char (c : ascii) : string :=
  let n := N_of_ascii c in
  if (n =? 34)%N then backslash ++ dquote
  else if (n =? 92)%N then backslash ++ backslash
  else if (n =? 8)%N then backslash ++ "b"
  else if (n =? 12)%N then backslash ++ "f"
  else if (n =? 10)%N then backslash ++ "n"
  else if (n =? 13)%N then backslash ++ "r"
  else if (n =? 9)%N then backslash ++ "t"
  else if (n <? 32)%N then
    backslash ++ "u00"
    ++ String (hex_digit (n / 16)) (String (hex_digit (n mod 16)) "")
  else String c "".

Fixpoint quote_body (s : string) : string :=
  match s with
  | EmptyString => ""
  | String c s' => quote_char c ++ quote_body s'
  end.

Definition quote (s : string) : string := dquote ++ quote_body s ++ dquote.

(** Brackets around the serialized members ([SerializeJSONObject] and
    [SerializeJSONArray], last steps): nothing between them when there is
    no member; the members separated by commas when [gap] is empty; one
    member per line at the new indentation otherwise. *)
Definition wrap (opening closing gap stepback : string)
           (partial : list string) : string :=
  match partial with
  | [] => opening ++ closing
  | _ =>
      if (gap =? "")%string then
        opening ++ String.concat "," partial ++ closing
      else
        let indent := stepback ++ gap in
        opening ++ newline ++ indent
        ++ String.concat ("," ++ newline ++ indent) partial
        ++ newline ++ stepback ++ closing
  end.

(** [SerializeJSONProperty]: [None] stands for [undefined] (the property
    is skipped in an object and written [null] in an array). *)
Fixpoint serialize (gap stepback : string) (v : Value) : option string :=
  match v with
  | VUndefined => None
  | VNull | VNaN => Some "null"
  | VBool true => Some "true"
  | VBool false => Some "false"
  | VNum n =>
      Some (if JS.is_finite n then JS.string_of_Z n else "null")
  | VStr s => Some (quote s)
  | VArr l =>
      let indent := stepback ++ gap in
      Some (wrap "[" "]" gap stepback
              (map (fun x => match serialize gap indent x with
                             | Some s => s
                             | None => "null"
                             end) l))
  | VObj o =>
      let indent := stepback ++ gap in
      let members :=
        (fix members (o : list (string * Value)) : list string :=
           match o with
           | [] => []
           | (k, x) :: o' =>
               match serialize gap indent x with
               | Some s =>
                   (quote k ++ ":" ++ (if (gap =? "")%string then "" else " ")
                    ++ s) :: members o'
               | None => members o'
               end
           end) o in
      Some (wrap "{" "}" gap stepback members)
  end.

(** [JSON.stringify(v, null, space)] for a number of spaces [space]
    (at most ten are used). *)
Definition spaces (n : nat) : string :=
  String.concat "" (repeat " " (Nat.min n 10)).

Definition stringify (v : Value) (space : nat) : option string :=
  serialize (spaces space) "" v.

End JSON.


(* ===================================================================== *)
(** ** Configuration, tokens, HTTP messages, errors *)
(* ===================================================================== *)

(** [AppStoreConnectConfig], filled from the environment at start-up. *)
Record AppStoreConnectConfig : Type := {
  keyId : string;
  issuerId : string;
  privateKeyPath : string
}.

(** A signed token, seen through its three parts: the protected header, the
    claims and the signature that [jwt.sign] computes over them. *)
Record JwtHeader : Type := { alg : string; typ : string; kid : string }.
Record JwtPayload : Type := { iat : Z; exp : Z; aud : string; iss : string }.
Record Token : Type := {
  header : JwtHeader;
  payload : JwtPayload;
  signature : string
}.

Inductive Method : Type := GET | POST | DELETE.

Inductive HeaderValue : Type :=
| Bearer (token : Token)        (* `Bearer ${token}` *)
| Literal (s : string).

(** One request handed to the axios instance: the method called, the path
    (relative to the base URL), the [headers] and [params] of the request
    configuration and the body of a POST. *)
Record HttpRequest : Type := {
  method : Method;
  url : string;
  headers : list (string * HeaderValue);
  params : list (string * Value);
  data : option Value
}.

(** What comes back from the upstream service: [body] is the text received,
    [rdata] the value axios decoded from it ([response.data]). *)
Record Response : Type := {
  status : Z;
  body : string;
  rdata : Value
}.

Inductive ErrorCode : Type := InvalidParams | MethodNotFound | InternalError.

(** The exceptions that can travel through the handler.  An [McpError] is
    given by the arguments of its constructor. *)
Inductive Error : Type :=
| McpError (code : ErrorCode) (message : string)
| TypeError (message : string)
| FsError (path : string)                       (* fs.readFile rejected *)
| JwtError (message : string)                   (* jwt.sign threw *)
| AxiosError (message : string) (response : option Response).

(** The result of a tool call: [{content: [{type, text}]}].  [text] is
    [None] where [JSON.stringify] returns [undefined]. *)
Record Content : Type := { type : string; text : option string }.
Record ToolResult : Type := { content : list Content }.

(** Everything outside the handler that one call depends on. *)
Record World : Type := {
  (** the file system: the content of a readable file *)
  read_file : string -> option string;
  (** [Date.now()], in milliseconds *)
  now_ms : Z;
  (** the ES256 signature of a header and claims under a PEM key; [None]
      when the key is not usable *)
  es256 : string -> JwtHeader -> JwtPayload -> option string;
  (** the upstream service: a response, or the message of a failed
      exchange *)
  upstream : HttpRequest -> Response + string;
  (** [Number(s)] on a string; [None] stands for [NaN] *)
  string_to_number : string -> option Z
}.

(* ===================================================================== *)
(** ** Effects *)
(* ===================================================================== *)

Inductive Event : Type :=
| ReadFile (path : string)
| Sign (key : string)
| Http (request : HttpRequest).

(** Computations without effects that may throw. *)
Definition Exc (A : Type) : Type := (Error + A)%type.

(** Computations of the handler: the effects performed, in order, and the
    value returned or the exception thrown. *)
Definition M (A : Type) : Type := (list Event * Exc A)%type.

Definition ret {A} (a : A) : M A := ([], inr a).
Definition throw {A} (e : Error) : M A := ([], inl e).
Definition lift {A} (x : Exc A) : M A := ([], x).
Definition emit (ev : Event) : M unit := ([ev], inr tt).

Definition bind {A B} (m : M A) (k : A -> M B) : M B :=
  match m with
  | (t, inl e) => (t, inl e)
  | (t, inr a) => let (t', r) := k a in ((t ++ t')%list, r)
  end.

Definition try_catch {A} (m : M A) (h : Error -> M A) : M A :=
  match m with
  | (t, inl e) => let (t', r) := h e in ((t ++ t')%list, r)
  | (t, inr a) => (t, inr a)
  end.

Definition ebind {A B} (x : Exc A) (k : A -> Exc B) : Exc B :=
  match x with
  | inl e => inl e
  | inr a => k a
  end.

Declare Scope handler_scope.
Delimit Scope handler_scope with handler.
Notation "x <- m ;; k" := (bind m (fun x => k))
  (at level 61, m at next level, right associativity) : handler_scope.
Notation "'let*' x := e 'in' k" := (ebind e (fun x => k))
  (at level 61, x name, e at next level, right associativity) : handler_scope.
Local Open Scope handler_scope.

Definition trace {A} (m : M A) : list Event := fst m.
Definition outcome {A} (m : M A) : Exc A := snd m.

(* ===================================================================== *)
(** ** The token issuer *)
(* ===================================================================== *)

Module Jwt.

Fixpoint digits (s : string) (acc : Z) : Z * string :=
  match s with
  | String c s' =>
      let n := Z.of_N (N_of_ascii c) in
      if (48 <=? n) && (n <=? 57) then digits s' (10 * acc + (n - 48))
      else (acc, s)
  | EmptyString => (acc, s)
  end.

(** The [ms] package on a time span written as a count and a unit:
    the span in milliseconds. *)
Definition ms (span : string) : option Z :=
  match span with
  | EmptyString => None
  | String c _ =>
      let n := Z.of_N (N_of_ascii c) in
      if (48 <=? n) && (n <=? 57) then
        let (count, unit) := digits span 0 in
        if (unit =? "ms")%string || (unit =? "")%string then Some count
        else if (unit =? "s")%string then Some (count * 1000)
        else if (unit =? "m")%string then Some (count * 60000)
        else if (unit =? "h")%string then Some (count * 3600000)
        else if (unit =? "d")%string then Some (count * 86400000)
        else if (unit =? "w")%string then Some (count * 604800000)
        else None
      else None
  end.

Record SignOptions : Type := {
  algorithm : string;
  expiresIn : string;
  audience : string;
  keyid : string;
  issuer : string
}.

(** [jwt.sign({}, key, options)] of the jsonwebtoken package with the
    options the issuer passes: the header carries the algorithm and the key
    identifier, [iat] is the current time in seconds, [exp] is [iat] plus
    the span, and the signature is computed over both. *)
Definition sign (w : World) (key : string) (options : SignOptions) : M Token :=
  match ms (expiresIn options) with
  | None => throw (JwtError "expiresIn is not a time span")
  | Some span =>
      let timestamp := now_ms w / 1000 in
      let h := {| alg := algorithm options; typ := "JWT";
                  kid := keyid options |} in
      let p := {| iat := timestamp; exp := timestamp + span / 1000;
                  aud := audience options; iss := issuer options |} in
      _ <- emit (Sign key) ;;
      match (if (algorithm options =? "ES256")%string
             then es256 w key h p else None) with
      | Some sig => ret {| header := h; payload := p; signature := sig |}
      | None => throw (JwtError "the key cannot sign with this algorithm")
      end
  end.

End Jwt.

(** [fs.readFile(path, 'utf-8')] *)
Definition readFile (w : World) (path : string) : M string :=
  _ <- emit (ReadFile path) ;;
  match read_file w path with
  | Some text => ret text
  | None => throw (FsError path)
  end.

(** [generateToken] (index.ts, lines 177-189). *)
Definition generateToken (config : AppStoreConnectConfig) (w : World)
  : M Token :=
  privateKey <- readFile w (privateKeyPath config) ;;
  token <- Jwt.sign w privateKey
    {| Jwt.algorithm := "ES256";
       Jwt.expiresIn := "20m";
       Jwt.audience := "appstoreconnect-v1";
       Jwt.keyid := keyId config;
       Jwt.issuer := issuerId config |} ;;
  ret token.


(* ===================================================================== *)
(** ** The axios instance *)
(* ===================================================================== *)

(** A request through [this.axiosInstance]: the promise resolves with the
    response when the status is 2xx, and rejects with an [AxiosError]
    otherwise (carrying the response when there is one). *)
Definition axios_request (w : World) (request : HttpRequest) : M Response :=
  _ <- emit (Http request) ;;
  match upstream w request with
  | inl r =>
      if (200 <=? status r) && (status r <? 300) then ret r
      else throw (AxiosError
                    ("Request failed with status code "
                     ++ JS.string_of_Z (status r)) (Some r))
  | inr message => throw (AxiosError message None)
  end.

(** [axios.isAxiosError(error)] *)
Definition isAxiosError (error : Error) : bool :=
  match error with
  | AxiosError _ _ => true
  | _ => false
  end.

(* ===================================================================== *)
(** ** Expressions of the handler *)
(* ===================================================================== *)

(** A number or [NaN] as a value. *)
Definition number (n : option Z) : Value :=
  match n with
  | Some z => VNum z
  | None => VNaN
  end.

(** [Number(v)]; an array is converted through its string. *)
Definition Number (w : World) (v : Value) : Value :=
  match v with
  | VUndefined | VNaN | VObj _ => VNaN
  | VNull => VNum 0
  | VBool b => VNum (if b then 1 else 0)
  | VNum n => VNum n
  | VStr s => number (string_to_number w s)
  | VArr _ => number (string_to_number w (JS.to_string v))
  end.

(** [Math.min(a, b)] on two numbers *)
Definition Math_min (a b : Value) : Value :=
  match a, b with
  | VNum x, VNum y => VNum (Z.min x y)
  | _, _ => VNaN
  end.

(** [const { k } = args]: throws when [args] is [undefined] or [null]. *)
Definition destructure (args : Value) (k : string) : Exc Value :=
  if JS.nullish args then
    inl (TypeError ("Cannot destructure property '" ++ k ++ "' of '"
                    ++ "request.params.arguments' as it is "
                    ++ JS.to_string args ++ "."))
  else inr (JS.member args k).

(** [const { k = d } = args] *)
Definition destructure_default (args : Value) (k : string) (d : Value)
  : Exc Value :=
  let* v := destructure args k in
  inr (match v with VUndefined => d | _ => v end).

(** [x.join(sep)], where [expr] is the text of [x] in the source: only an
    array has the method among decoded values, and the [TypeError] for
    anything else names the expression. *)
Definition call_join (expr : string) (x : Value) (sep : string)
  : Exc Value :=
  match x with
  | VArr l => inr (VStr (JS.join sep l))
  | _ => inl (TypeError (expr ++ ".join is not a function"))
  end.

(** [x?.join(sep)] *)
Definition opt_call_join (expr : string) (x : Value) (sep : string)
  : Exc Value :=
  if JS.nullish x then inr VUndefined
  else
    match x with
    | VArr l => inr (VStr (JS.join sep l))
    | _ => inl (TypeError (expr ++ "?.join is not a function"))
    end.

(** [if (x?.length) params[k] = x.join(",");] where [expr] is the text of
    [x]. *)
Definition assign_joined (expr k : string) (x : Value)
           (params : list (string * Value)) : Exc (list (string * Value)) :=
  if JS.truthy (JS.opt_member x "length") then
    let* joined := call_join expr x "," in
    inr (JS.set k joined params)
  else inr params.

(** [if (cond) params[k] = v;] *)
Definition assign_if (cond : bool) (k : string) (v : Value)
           (params : list (string * Value)) : list (string * Value) :=
  if cond then JS.set k v params else params.

(** [if (Array.isArray(x) && x.length > 0) params[k] = x.join(',');] *)
Definition assign_array_joined (k : string) (x : Value)
           (params : list (string * Value)) : list (string * Value) :=
  match x with
  | VArr l =>
      assign_if (0 <? Z.of_nat (List.length l)) k (VStr (JS.join "," l)) params
  | _ => params
  end.

(** [typeof v] *)
Definition typeof (v : Value) : string :=
  match v with
  | VUndefined => "undefined"
  | VBool _ => "boolean"
  | VNum _ | VNaN => "number"
  | VStr _ => "string"
  | VNull | VArr _ | VObj _ => "object"
  end.

Definition authorization (token : Token) : string * HeaderValue :=
  ("Authorization", Bearer token).

(** [{content: [{type: 'text', text: s}]}] *)
Definition text_content (s : option string) : ToolResult :=
  {| content := [ {| type := "text"; text := s |} ] |}.

(** [JSON.stringify(response.data, null, 2)] as the text of the result. *)
Definition json_result (response : Response) : ToolResult :=
  text_content (JSON.stringify (rdata response) 2).

(* ===================================================================== *)
(** ** The cases of the tool-call handler *)
(* ===================================================================== *)

(** Every [case] block of the handler has the same course: statements
    without effects (destructuring the arguments, the check of the required
    ones, the query parameters), then one request through the axios
    instance, then a [return] built from the response.  A [Plan] is what
    the first part leaves: the request to send and the result to build. *)
Record Plan : Type := {
  request : HttpRequest;
  result : Response -> ToolResult
}.

Definition http_get (path : string) (token : Token)
           (query : list (string * Value)) : HttpRequest :=
  {| method := GET; url := path; headers := [authorization token];
     params := query; data := None |}.

(** [case "list_apps"] (lines 501-516) *)
Definition list_apps (args : Value) (token : Token) : Exc Plan :=
  inr {| request :=
           http_get "/apps" token
             [("limit", JS.or_else (JS.opt_member args "limit") (VNum 100))];
         result := json_result |}.

(** [case "list_beta_groups"] (lines 518-536) *)
Definition list_beta_groups (args : Value) (token : Token) : Exc Plan :=
  inr {| request :=
           http_get "/betaGroups" token
             [("limit", JS.or_else (JS.opt_member args "limit") (VNum 100));
              ("include", VStr "app,betaTesters")];
         result := json_result |}.

(** [case "get_app_info"] (lines 538-566) *)
Definition get_app_info (args : Value) (token : Token) : Exc Plan :=
  let* appId := destructure args "appId" in
  let* include := destructure args "include" in
  if negb (JS.truthy appId) then
    inl (McpError InvalidParams "appId is required")
  else
    let* joined := opt_call_join "include" include "," in
    inr {| request :=
             http_get ("/apps/" ++ JS.to_string appId) token
               [("include", joined)];
           result := json_result |}.

(** [case "list_users"] (lines 568-616) *)
Definition list_users (w : World) (args : Value) (token : Token) : Exc Plan :=
  let args := JS.or_else args (VObj []) in
  let* limit := destructure_default args "limit" (VNum 100) in
  let* sort := destructure args "sort" in
  let* filter := destructure args "filter" in
  let* include := destructure args "include" in
  let params := [("limit", Math_min (Number w limit) (VNum 200))] in
  let params := assign_if (JS.truthy sort) "sort" sort params in
  let* params :=
    if JS.truthy filter then
      let params :=
        assign_if (JS.truthy (JS.member filter "username"))
          "filter[username]" (JS.member filter "username") params in
      let* params :=
        assign_joined "filter.roles" "filter[roles]"
          (JS.member filter "roles") params in
      assign_joined "filter.visibleApps" "filter[visibleApps]"
        (JS.member filter "visibleApps") params
    else inr params in
  let params := assign_array_joined "include" include params in
  inr {| request := http_get "/users" token params; result := json_result |}.

(** The query parameters of the two customer-review listings (lines
    648-656 and, word for word, 703-711). *)
Definition review_params (w : World) (args : Value)
  : Exc (list (string * Value)) :=
  let* filterTerritory := destructure args "filterTerritory" in
  let* filterRating := destructure args "filterRating" in
  let* existsPublishedResponse := destructure args "existsPublishedResponse" in
  let* sort := destructure args "sort" in
  let* fieldsCustomerReviews := destructure args "fieldsCustomerReviews" in
  let* fieldsCustomerReviewResponses :=
    destructure args "fieldsCustomerReviewResponses" in
  let* limit := destructure args "limit" in
  let* include := destructure args "include" in
  let params := [] in
  let* params :=
    assign_joined "filterTerritory" "filter[territory]" filterTerritory
      params in
  let* params :=
    assign_joined "filterRating" "filter[rating]" filterRating params in
  let params :=
    assign_if (typeof existsPublishedResponse =? "boolean")%string
      "exists[publishedResponse]" existsPublishedResponse params in
  let* params := assign_joined "sort" "sort" sort params in
  let* params :=
    assign_joined "fieldsCustomerReviews" "fields[customerReviews]"
      fieldsCustomerReviews params in
  let* params :=
    assign_joined "fieldsCustomerReviewResponses"
      "fields[customerReviewResponses]" fieldsCustomerReviewResponses
      params in
  let params :=
    assign_if (typeof limit =? "number")%string
      "limit" (Math_min (Number w limit) (VNum 200)) params in
  assign_joined "include" "include" include params.

(** [case "list_customer_reviews"] (lines 618-671) *)
Definition list_customer_reviews (w : World) (args : Value) (token : Token)
  : Exc Plan :=
  let* appId := destructure args "appId" in
  if negb (JS.truthy appId) then
    inl (McpError InvalidParams "appId is required")
  else
    let* params := review_params w args in
    inr {| request :=
             http_get ("/apps/" ++ JS.to_string appId ++ "/customerReviews")
               token params;
           result := json_result |}.

(** [case "list_customer_reviews_for_version"] (lines 673-726) *)
Definition list_customer_reviews_for_version (w : World) (args : Value)
           (token : Token) : Exc Plan :=
  let* versionId := destructure args "versionId" in
  if negb (JS.truthy versionId) then
    inl (McpError InvalidParams "versionId is required")
  else
    let* params := review_params w args in
    inr {| request :=
             http_get ("/appStoreVersions/" ++ JS.to_string versionId
                       ++ "/customerReviews") token params;
           result := json_result |}.

(** [case "create_customer_review_response"] (lines 728-768) *)
Definition create_customer_review_response (args : Value) (token : Token)
  : Exc Plan :=
  let* reviewId := destructure args "reviewId" in
  let* responseBody := destructure args "responseBody" in
  if negb (JS.truthy reviewId) || negb (JS.truthy responseBody) then
    inl (McpError InvalidParams "reviewId and responseBody are required")
  else
    let body :=
      VObj [("data", VObj [
        ("type", VStr "customerReviewResponses");
        ("attributes", VObj [("responseBody", responseBody)]);
        ("relationships", VObj [
          ("review", VObj [
            ("data", VObj [("id", reviewId);
                           ("type", VStr "customerReviews")])])])])] in
    inr {| request :=
             {| method := POST; url := "/customerReviewResponses";
                headers := [authorization token;
                            ("Content-Type", Literal "application/json")];
                params := []; data := Some body |};
           result := json_result |}.

(** [case "delete_customer_review_response"] (lines 770-789) *)
Definition delete_customer_review_response (args : Value) (token : Token)
  : Exc Plan :=
  let* responseId := destructure args "responseId" in
  if negb (JS.truthy responseId) then
    inl (McpError InvalidParams "responseId is required")
  else
    inr {| request :=
             {| method := DELETE;
                url := "/customerReviewResponses/" ++ JS.to_string responseId;
                headers := [authorization token];
                params := []; data := None |};
           result := fun _ =>
             text_content
               (Some ("Customer review response " ++ JS.to_string responseId
                      ++ " deleted successfully.")) |}.

(** [case "get_customer_review_response"] (lines 791-810) *)
Definition get_customer_review_response (args : Value) (token : Token)
  : Exc Plan :=
  let* reviewId := destructure args "reviewId" in
  if negb (JS.truthy reviewId) then
    inl (McpError InvalidParams "reviewId is required")
  else
    inr {| request :=
             http_get ("/customerReviews/" ++ JS.to_string reviewId
                       ++ "/response") token [];
           result := json_result |}.

(** [switch (name)] with its [default] (lines 500-817). *)
Definition switch (w : World) (name : string) (args : Value) (token : Token)
  : Exc Plan :=
  if (name =? "list_apps")%string then list_apps args token
  else if (name =? "list_beta_groups")%string then list_beta_groups args token
  else if (name =? "get_app_info")%string then get_app_info args token
  else if (name =? "list_users")%string then list_users w args token
  else if (name =? "list_customer_reviews")%string
       then list_customer_reviews w args token
  else if (name =? "list_customer_reviews_for_version")%string
       then list_customer_reviews_for_version w args token
  else if (name =? "create_customer_review_response")%string
       then create_customer_review_response args token
  else if (name =? "delete_customer_review_response")%string
       then delete_customer_review_response args token
  else if (name =? "get_customer_review_response")%string
       then get_customer_review_response args token
  else inl (McpError MethodNotFound ("Unknown tool: " ++ name)).

(** [request.params] of a tool call. *)
Record CallToolRequest : Type := {
  name : string;
  arguments : Value
}.

(** [error.response?.data?.errors?.[0]?.detail] *)
Definition first_error_detail (response : option Response) : Value :=
  let data :=
    match response with
    | Some r => rdata r
    | None => VUndefined
    end in
  JS.opt_member (JS.opt_first (JS.opt_member data "errors")) "detail".

(** The [catch] block (lines 818-826). *)
Definition on_error (error : Error) : M ToolResult :=
  match error with
  | AxiosError message response =>
      throw (McpError InternalError
               ("App Store Connect API error: "
                ++ JS.to_string
                     (JS.coalesce (first_error_detail response)
                        (VStr message))))
  | _ => throw error
  end.

(** The handler of [CallToolRequestSchema] (lines 495-827). *)
Definition call_tool (config : AppStoreConnectConfig) (w : World)
           (req : CallToolRequest) : M ToolResult :=
  try_catch
    (token <- generateToken config w ;;
     plan <- lift (switch w (name req) (arguments req) token) ;;
     response <- axios_request w (request plan) ;;
     ret (result plan response))
    on_error.

(* ===================================================================== *)
(** ** The tool list *)
(* ===================================================================== *)

Record Tool : Type := {
  tool_name : string;
  description : string;
  inputSchema : Value
}.

Module Schema.

Definition strings (l : list string) : Value := VArr (map VStr l).

(** [{type: "string", description: d}] *)
Definition string_prop (d : string) : Value :=
  VObj [("type", VStr "string"); ("description", VStr d)].

(** [{type: "array", items: {type: "string"}, description: d}] *)
Definition string_array (d : string) : Value :=
  VObj [("type", VStr "array");
        ("items", VObj [("type", VStr "string")]);
        ("description", VStr d)].

(** [{type: "array", items: {type: "string", enum: e}, description: d}] *)
Definition enum_array (e : list string) (d : string) : Value :=
  VObj [("type", VStr "array");
        ("items", VObj [("type", VStr "string"); ("enum", strings e)]);
        ("description", VStr d)].

(** [{type: "object", properties: p, required: r}] *)
Definition object_with (p : list (string * Value)) (r : list string) : Value :=
  VObj [("type", VStr "object"); ("properties", VObj p);
        ("required", strings r)].

(** The properties that the two customer-review listings share (lines
    326-376 and 391-441). *)
Definition review_properties : list (string * Value) :=
  [("filterTerritory", string_array "Filter by territory (ISO country code)");
   ("filterRating", string_array "Filter by rating (1-5)");
   ("existsPublishedResponse",
     VObj [("type", VStr "boolean");
           ("description", VStr "Filter by published response existence")]);
   ("sort", enum_array ["rating"; "-rating"; "createdDate"; "-createdDate"]
              "Sort expressions");
   ("fieldsCustomerReviews",
     enum_array ["rating"; "title"; "body"; "reviewerNickname"; "createdDate";
                 "territory"; "response"]
       "Fields to include for customerReviews");
   ("fieldsCustomerReviewResponses",
     enum_array ["responseBody"; "lastModifiedDate"; "state"; "review"]
       "Fields to include for customerReviewResponses");
   ("limit",
     VObj [("type", VStr "number");
           ("description", VStr "Maximum resources per page (max 200)");
           ("maximum", VNum 200)]);
   ("include", enum_array ["response"] "Relationships to include")].

End Schema.

(** The list returned by the handler of [ListToolsRequestSchema] (lines
    193-492). *)
Definition tools : list Tool :=
  [ {| tool_name := "list_apps";
       description := "Get a list of all apps in App Store Connect";
       inputSchema :=
         VObj [("type", VStr "object");
               ("properties", VObj [
                 ("limit", VObj [
                   ("type", VStr "number");
                   ("description",
                     VStr "Maximum number of apps to return (default: 100)");
                   ("minimum", VNum 1);
                   ("maximum", VNum 200)])])] |};
    {| tool_name := "get_app_info";
       description := "Get detailed information about a specific app";
       inputSchema :=
         Schema.object_with
           [("appId",
              Schema.string_prop "The ID of the app to get information for");
            ("include",
              Schema.enum_array
                ["appClips"; "appInfos"; "appStoreVersions";
                 "availableTerritories"; "betaAppReviewDetail"; "betaGroups";
                 "betaLicenseAgreement"; "builds"; "endUserLicenseAgreement";
                 "gameCenterEnabledVersions"; "inAppPurchases"; "preOrder";
                 "prices"; "reviewSubmissions"]
                "Optional relationships to include in the response")]
           ["appId"] |};
    {| tool_name := "list_users";
       description :=
         "Get a list of all users registered on your App Store Connect team";
       inputSchema :=
         VObj [("type", VStr "object");
               ("properties", VObj [
                 ("limit", VObj [
                   ("type", VStr "number");
                   ("description",
                     VStr ("Maximum number of users to return "
                           ++ "(default: 100, max: 200)"));
                   ("minimum", VNum 1);
                   ("maximum", VNum 200)]);
                 ("sort", VObj [
                   ("type", VStr "string");
                   ("description", VStr "Sort order for the results");
                   ("enum", Schema.strings
                      ["username"; "-username"; "firstName"; "-firstName";
                       "lastName"; "-lastName"; "roles"; "-roles"])]);
                 ("filter", VObj [
                   ("type", VStr "object");
                   ("properties", VObj [
                     ("username", Schema.string_prop "Filter by username");
                     ("roles",
                       Schema.enum_array
                         ["ADMIN"; "FINANCE"; "TECHNICAL"; "SALES";
                          "MARKETING"; "DEVELOPER"; "ACCOUNT_HOLDER";
                          "READ_ONLY"; "APP_MANAGER"; "ACCESS_TO_REPORTS";
                          "CUSTOMER_SUPPORT"]
                         "Filter by user roles");
                     ("visibleApps",
                       Schema.string_array
                         "Filter by apps the user can see (app IDs)")])]);
                 ("include", VObj [
                   ("type", VStr "array");
                   ("items", VObj [
                     ("type", VStr "string");
                     ("enum", Schema.strings ["visibleApps"]);
                     ("description",
                       VStr "Related resources to include in the response")
                   ])])])] |};
    {| tool_name := "list_customer_reviews";
       description := "List all customer reviews for an app.";
       inputSchema :=
         Schema.object_with
           (("appId",
              Schema.string_prop
                "The ID of the app to get customer reviews for.")
            :: Schema.review_properties)
           ["appId"] |};
    {| tool_name := "list_customer_reviews_for_version";
       description :=
         "List all customer reviews for a specific App Store Version.";
       inputSchema :=
         Schema.object_with
           (("versionId",
              Schema.string_prop
                "The ID of the App Store Version to get customer reviews for.")
            :: Schema.review_properties)
           ["versionId"] |};
    {| tool_name := "create_customer_review_response";
       description :=
         "Create a response or replace an existing response you wrote "
         ++ "to a customer review.";
       inputSchema :=
         Schema.object_with
           [("reviewId",
              Schema.string_prop
                "The ID of the customer review to respond to.");
            ("responseBody",
              Schema.string_prop "The response text to the customer review.")]
           ["reviewId"; "responseBody"] |};
    {| tool_name := "delete_customer_review_response";
       description := "Delete a response to a customer review.";
       inputSchema :=
         Schema.object_with
           [("responseId",
              Schema.string_prop
                "The ID of the customer review response to delete.")]
           ["responseId"] |};
    {| tool_name := "get_customer_review_response";
       description := "Get the response to a specific customer review.";
       inputSchema :=
         Schema.object_with
           [("reviewId",
              Schema.string_prop
                "The ID of the customer review to get the response for.")]
           ["reviewId"] |} ].

(** The handler of [ListToolsRequestSchema]: no effect, the list itself. *)
Definition list_tools : M (list Tool) := ret tools.

(** The names in the [required] array of a tool's input schema; none when
    the schema has no such array or the tool is not listed. *)
Definition declared_required (name : string) : list string :=
  match find (fun t => (tool_name t =? name)%string) tools with
  | Some t =>
      match JS.member (inputSchema t) "required" with
      | VArr l =>
          flat_map (fun v => match v with VStr s => [s] | _ => [] end) l
      | _ => []
      end
  | None => []
  end.

(** The tool names that the [switch] of the handler has a [case] for. *)
Definition handled_names : list string :=
  ["list_apps"; "list_beta_groups"; "get_app_info"; "list_users";
   "list_customer_reviews"; "list_customer_reviews_for_version";
   "create_customer_review_response"; "delete_customer_review_response";
   "get_customer_review_response"].

(** The tools of the request-shaping table: the nine that the project's
    documentation lists. *)
Definition documented_names : list string :=
  ["list_apps"; "get_app_info"; "list_users"; "list_customer_reviews";
   "list_customer_reviews_for_version"; "create_customer_review_response";
   "delete_customer_review_response"; "get_customer_review_response";
   "list_beta_groups"].

(* ===================================================================== *)
(** ** Observations on a run *)
(* ===================================================================== *)

(** The HTTP requests sent during a computation. *)
Definition http_requests (t : list Event) : list HttpRequest :=
  flat_map (fun ev => match ev with Http r => [r] | _ => [] end) t.

(** The files read during a computation. *)
Definition files_read (t : list Event) : list string :=
  flat_map (fun ev => match ev with ReadFile p => [p] | _ => [] end) t.

(** The query parameters as they go on the wire: axios leaves out the
    entries whose value is [undefined] or [null]. *)
Definition sent_params (r : HttpRequest) : list (string * Value) :=
  filter (fun kv => negb (JS.nullish (snd kv))) (params r).

(** A sequence of tool calls, each in the world it meets.  The server keeps
    nothing between calls: its two fields are the protocol server and the
    axios instance. *)
Definition serve (config : AppStoreConnectConfig)
           (calls : list (World * CallToolRequest)) : list (M ToolResult) :=
  map (fun c => call_tool config (fst c) (snd c)) calls.

(* ===================================================================== *)
(** ** Sample configuration and worlds *)
(* ===================================================================== *)

Module Sample.

Definition config : AppStoreConnectConfig :=
  {| keyId := "2X9R4HXF34";
     issuerId := "57246542-96fe-1a63-e053-0824d011072a";
     privateKeyPath := "/keys/AuthKey.p8" |}.

(** A world whose key file holds [pem] when [pem] is given, and whose
    upstream service answers every request with [answer]. *)
Definition world (pem : option string) (answer : Response + string) : World :=
  {| read_file := fun p =>
       if (p =? "/keys/AuthKey.p8")%string then pem else None;
     now_ms := 1700000000123;
     es256 := fun key _ _ => Some ("signed with " ++ key);
     upstream := fun _ => answer;
     string_to_number := fun _ => None |}.

(** The body [{"data":{"id":"123"}}] and the value decoded from it. *)
Definition app_body : string :=
  "{" ++ JSON.dquote ++ "data" ++ JSON.dquote ++ ":{"
  ++ JSON.dquote ++ "id" ++ JSON.dquote ++ ":"
  ++ JSON.dquote ++ "123" ++ JSON.dquote ++ "}}".

Definition app_data : Value := VObj [("data", VObj [("id", VStr "123")])].

Definition ok_app : Response + string :=
  inl {| status := 200; body := app_body; rdata := app_data |}.


(** An empty 204, as a successful DELETE is answered. *)
Definition no_content : Response + string :=
  inl {| status := 204; body := ""; rdata := VStr "" |}.

Definition token : Token :=
  {| header := {| alg := "ES256"; typ := "JWT"; kid := keyId config |};
     payload := {| iat := 1700000000; exp := 1700001200;
                   aud := "appstoreconnect-v1"; iss := issuerId config |};
     signature := "signed with PEM" |}.

End Sample.

(* ===================================================================== *)
(** ** Vocabulary of the statements *)
(* ===================================================================== *)

(** The property names of an object, in order. *)
Definition keys (o : list (string * Value)) : list string := map fst o.

(** The header and the claims of the token issued in world [w]. *)
Definition issued_header (config : AppStoreConnectConfig) : JwtHeader :=
  {| alg := "ES256"; typ := "JWT"; kid := keyId config |}.

Definition issued_payload (config : AppStoreConnectConfig) (w : World)
  : JwtPayload :=
  {| iat := now_ms w / 1000; exp := now_ms w / 1000 + 1200;
     aud := "appstoreconnect-v1"; iss := issuerId config |}.

(** The three courses of [generateToken]: the key file cannot be read; the
    key is read and cannot sign; the key is read and signs. *)
Inductive issuance (config : AppStoreConnectConfig) (w : World)
  : M Token -> Prop :=
| key_unreadable :
    read_file w (privateKeyPath config) = None ->
    issuance config w
      ([ReadFile (privateKeyPath config)],
       inl (FsError (privateKeyPath config)))
| key_unusable key :
    read_file w (privateKeyPath config) = Some key ->
    es256 w key (issued_header config) (issued_payload config w) = None ->
    issuance config w
      ([ReadFile (privateKeyPath config); Sign key],
       inl (JwtError "the key cannot sign with this algorithm"))
| token_signed key sig :
    read_file w (privateKeyPath config) = Some key ->
    es256 w key (issued_header config) (issued_payload config w) = Some sig ->
    issuance config w
      ([ReadFile (privateKeyPath config); Sign key],
       inr {| header := issued_header config;
              payload := issued_payload config w;
              signature := sig |}).

(** The arguments [o] without the property [k]. *)
Definition omit (k : string) (o : list (string * Value))
  : list (string * Value) :=
  filter (fun kv => negb (fst kv =? k)%string) o.

Definition fails_with (code : ErrorCode) (run : M ToolResult) : Prop :=
  exists msg, outcome run = inl (McpError code msg).

Definition sends_nothing (run : M ToolResult) : Prop :=
  http_requests (trace run) = [].

(** "A call with a declared required argument omitted fails with
    InvalidParams and no request is sent." *)
Definition spec_missing_required (config : AppStoreConnectConfig) (w : World)
           (tool : string) (o : list (string * Value)) : Prop :=
  forall r, In r (declared_required tool) -> JS.lookup r o = None ->
    let run := call_tool config w {| name := tool; arguments := VObj o |} in
    fails_with InvalidParams run /\ sends_nothing run.

(** "An empty string for a required argument fails with InvalidParams and
    no request is sent." *)
Definition spec_empty_required (config : AppStoreConnectConfig) (w : World)
           (tool : string) (o : list (string * Value)) : Prop :=
  forall r, In r (declared_required tool) ->
    JS.lookup r o = Some (VStr "") ->
    let run := call_tool config w {| name := tool; arguments := VObj o |} in
    fails_with InvalidParams run /\ sends_nothing run.

(** The case of the call throws for every token: the check of a required
    argument fails, or the name has no case. *)
Definition refused (w : World) (req : CallToolRequest) : Prop :=
  forall token, exists code msg,
    switch w (name req) (arguments req) token = inl (McpError code msg)
    /\ (code = InvalidParams \/ code = MethodNotFound).

(** "A call that is refused reads no key file and issues no token." *)
Definition spec_validate_before_token (config : AppStoreConnectConfig)
           (w : World) (req : CallToolRequest) : Prop :=
  refused w req -> files_read (trace (call_tool config w req)) = [].

(** The list-valued arguments of the two customer-review listings, each
    with the query parameter it is written to. *)
Definition review_list_arguments : list (string * string) :=
  [("filterTerritory", "filter[territory]");
   ("filterRating", "filter[rating]");
   ("sort", "sort");
   ("fieldsCustomerReviews", "fields[customerReviews]");
   ("fieldsCustomerReviewResponses", "fields[customerReviewResponses]");
   ("include", "include")].

(** The arguments that the input schemas declare as arrays: the tool, the
    path of the argument in the arguments object, the query parameter. *)
Definition list_valued_arguments : list (string * list string * string) :=
  ([("get_app_info", ["include"], "include");
    ("list_users", ["filter"; "roles"], "filter[roles]");
    ("list_users", ["filter"; "visibleApps"], "filter[visibleApps]");
    ("list_users", ["include"], "include")]
   ++ map (fun ak => ("list_customer_reviews", [fst ak], snd ak))
        review_list_arguments
   ++ map (fun ak => ("list_customer_reviews_for_version", [fst ak], snd ak))
        review_list_arguments)%list.

Definition argument_at (args : Value) (path : list string) : Value :=
  fold_left JS.opt_member path args.

(** The [limit] that the customer-review listings send. *)
Definition review_limit (w : World) (limit : Value) : option Value :=
  if (typeof limit =? "number")%string
  then Some (Math_min (Number w limit) (VNum 200))
  else None.

(** The [limit] that [list_users] sends. *)
Definition users_limit (w : World) (limit : Value) : Value :=
  Math_min (Number w match limit with VUndefined => VNum 100 | _ => limit end)
    (VNum 200).

(** "Every list-valued argument given as an array of strings is sent as
    those strings joined by commas." *)
Definition spec_joined_list (w : World) (tool : string) (path : list string)
           (key : string) (args : Value) (token : Token) : Prop :=
  forall l plan,
    argument_at args path = VArr (map VStr l) ->
    switch w tool args token = inr plan ->
    JS.lookup key (params (request plan))
    = Some (VStr (String.concat "," l)).

(** The tools that take a [limit]. *)
Definition limit_tools : list string :=
  ["list_apps"; "list_beta_groups"; "list_users"; "list_customer_reviews";
   "list_customer_reviews_for_version"].

(** "A limit above 200 is sent as 200; a limit below 1, or none, is sent
    as the default 100." *)
Definition spec_limit (w : World) (tool : string)
           (o : list (string * Value)) (token : Token) : Prop :=
  In tool limit_tools ->
  forall plan, switch w tool (VObj o) token = inr plan ->
    let sent := JS.lookup "limit" (params (request plan)) in
    (forall n, JS.lookup "limit" o = Some (VNum n) -> 200 < n ->
               sent = Some (VNum 200))
    /\ (forall n, JS.lookup "limit" o = Some (VNum n) -> n < 1 ->
                  sent = Some (VNum 100))
    /\ (JS.lookup "limit" o = None -> sent = Some (VNum 100)).

(** "The text of the result is the upstream body, byte for byte." *)
Definition spec_verbatim (config : AppStoreConnectConfig) (w : World)
           (req : CallToolRequest) : Prop :=
  name req <> "delete_customer_review_response" ->
  forall token plan response,
    outcome (generateToken config w) = inr token ->
    switch w (name req) (arguments req) token = inr plan ->
    outcome (axios_request w (request plan)) = inr response ->
    outcome (call_tool config w req)
    = inr {| content := [ {| type := "text";
                             text := Some (body response) |} ] |}.


(* ===================================================================== *)
(** ** Start-up *)
(* ===================================================================== *)

(** [process.env.K]: the string the variable holds, [undefined] when it is
    not set. *)
Definition env_value (env : string -> option string) (k : string) : Value :=
  match env k with
  | Some s => VStr s
  | None => VUndefined
  end.

Definition startup_message : string :=
  "Missing required environment variables. Please set: "
  ++ "APP_STORE_CONNECT_KEY_ID, APP_STORE_CONNECT_ISSUER_ID, "
  ++ "APP_STORE_CONNECT_P8_PATH".

(** Lines 141-154: the configuration is read from three environment
    variables, and the module throws an [Error] with [startup_message] when
    one of them is falsy; [inl] carries the message of that error. *)
Definition load_config (env : string -> option string)
  : string + AppStoreConnectConfig :=
  let keyId := env_value env "APP_STORE_CONNECT_KEY_ID" in
  let issuerId := env_value env "APP_STORE_CONNECT_ISSUER_ID" in
  let privateKeyPath := env_value env "APP_STORE_CONNECT_P8_PATH" in
  if negb (JS.truthy keyId) || negb (JS.truthy issuerId)
     || negb (JS.truthy privateKeyPath)
  then inl startup_message
  else inr {| keyId := JS.to_string keyId;
              issuerId := JS.to_string issuerId;
              privateKeyPath := JS.to_string privateKeyPath |}.

(** The base URL of the axios instance (lines 170-172). *)
Definition baseURL : string := "https://api.appstoreconnect.apple.com/v1".

(* ===================================================================== *)
(** ** Tables read off the cases *)
(* ===================================================================== *)

(** The cases that destructure [request.params.arguments] as it comes. *)
Definition destructuring_tools : list string :=
  ["get_app_info"; "list_customer_reviews";
   "list_customer_reviews_for_version"; "create_customer_review_response";
   "delete_customer_review_response"; "get_customer_review_response"].

(** The cases that read the arguments through [?.] or [|| {}]. *)
Definition lenient_tools : list string :=
  ["list_apps"; "list_beta_groups"; "list_users"].

(** The arguments that the customer-review listings read besides the
    identifier. *)
Definition review_arguments : list string :=
  ["filterTerritory"; "filterRating"; "existsPublishedResponse"; "sort";
   "fieldsCustomerReviews"; "fieldsCustomerReviewResponses"; "limit";
   "include"].

(** The properties of the arguments object that a case reads. *)
Definition read_keys (tool : string) : list string :=
  if (tool =? "list_apps")%string then ["limit"]
  else if (tool =? "list_beta_groups")%string then ["limit"]
  else if (tool =? "get_app_info")%string then ["appId"; "include"]
  else if (tool =? "list_users")%string
       then ["limit"; "sort"; "filter"; "include"]
  else if (tool =? "list_customer_reviews")%string
       then "appId" :: review_arguments
  else if (tool =? "list_customer_reviews_for_version")%string
       then "versionId" :: review_arguments
  else if (tool =? "create_customer_review_response")%string
       then ["reviewId"; "responseBody"]
  else if (tool =? "delete_customer_review_response")%string
       then ["responseId"]
  else if (tool =? "get_customer_review_response")%string then ["reviewId"]
  else [].

(** The query parameters that the customer-review listings can write, in
    the order of their assignments. *)
Definition review_query : list string :=
  ["filter[territory]"; "filter[rating]"; "exists[publishedResponse]";
   "sort"; "fields[customerReviews]"; "fields[customerReviewResponses]";
   "limit"; "include"].

(** The query parameters that a case can write. *)
Definition allowed_query (tool : string) : list string :=
  if (tool =? "list_apps")%string then ["limit"]
  else if (tool =? "list_beta_groups")%string then ["limit"; "include"]
  else if (tool =? "get_app_info")%string then ["include"]
  else if (tool =? "list_users")%string
       then ["limit"; "sort"; "filter[username]"; "filter[roles]";
             "filter[visibleApps]"; "include"]
  else if (tool =? "list_customer_reviews")%string then review_query
  else if (tool =? "list_customer_reviews_for_version")%string
       then review_query
  else [].

(** A route: the tool, the method, the text of the path before the
    identifier, the argument that holds the identifier (if the path has
    one), the text after it. *)
Definition routes
  : list (string * Method * string * option string * string) :=
  [("list_apps", GET, "/apps", None, "");
   ("list_beta_groups", GET, "/betaGroups", None, "");
   ("get_app_info", GET, "/apps/", Some "appId", "");
   ("list_users", GET, "/users", None, "");
   ("list_customer_reviews", GET, "/apps/", Some "appId",
    "/customerReviews");
   ("list_customer_reviews_for_version", GET, "/appStoreVersions/",
    Some "versionId", "/customerReviews");
   ("create_customer_review_response", POST, "/customerReviewResponses",
    None, "");
   ("delete_customer_review_response", DELETE, "/customerReviewResponses/",
    Some "responseId", "");
   ("get_customer_review_response", GET, "/customerReviews/",
    Some "reviewId", "/response")].



(** The exceptions that the statements inside a [case] block throw: the
    check of a required argument and the type errors of the expressions. *)
Definition thrown_by_check (e : Error) : Prop :=
  match e with
  | McpError InvalidParams _ | TypeError _ => True
  | _ => False
  end.

(** The body that [create_customer_review_response] posts (lines
    738-753), for the two values it is built from. *)
Definition response_envelope (reviewId responseBody : Value) : Value :=
  VObj [("data", VObj [
    ("type", VStr "customerReviewResponses");
    ("attributes", VObj [("responseBody", responseBody)]);
    ("relationships", VObj [
      ("review", VObj [
        ("data", VObj [("id", reviewId);
                       ("type", VStr "customerReviews")])])])])].

(** The exceptions that the issuer throws. *)
Definition thrown_by_issuer (e : Error) : Prop :=
  match e with
  | FsError _ | JwtError _ => True
  | _ => False
  end.

(* ===================================================================== *)
(** ** Basic facts: the monads and the JavaScript expressions *)
(* ===================================================================== *)

Example ms_20m : Jwt.ms "20m" = Some 1200000.
Proof. reflexivity. Qed.

Lemma ebind_inr {A B} (x : Exc A) (k : A -> Exc B) (b : B) :
  ebind x k = inr b -> exists a, x = inr a /\ k a = inr b.
Proof.
  destruct x as [e | a]; simpl; intros H; [discriminate | eauto].
Qed.

Lemma ebind_inl {A B} (x : Exc A) (k : A -> Exc B) (e : Error) :
  ebind x k = inl e -> x = inl e \/ exists a, x = inr a /\ k a = inl e.
Proof.
  destruct x as [e' | a]; simpl; intros H;
    [left; inversion H; reflexivity | right; eauto].
Qed.

Lemma destructure_object (o : list (string * Value)) (k : string) :
  destructure (VObj o) k = inr (JS.member (VObj o) k).
Proof. reflexivity. Qed.

Lemma destructure_inr (args : Value) (k : string) (v : Value) :
  destructure args k = inr v -> JS.nullish args = false /\ v = JS.member args k.
Proof.
  unfold destructure. destruct (JS.nullish args); intros H;
    [discriminate | inversion H; auto].
Qed.

(** Property order is kept by an assignment, and the key it writes is the
    only one it can add. *)
Lemma lookup_set_same (k : string) (v : Value) (o : list (string * Value)) :
  JS.lookup k (JS.set k v o) = Some v.
Proof.
  induction o as [| [k' v'] o IH]; simpl.
  - now rewrite String.eqb_refl.
  - destruct (k' =? k)%string eqn:E; simpl.
    + now rewrite String.eqb_refl.
    + now rewrite E.
Qed.

Lemma lookup_set_other (k k' : string) (v : Value) (o : list (string * Value)) :
  k' <> k -> JS.lookup k' (JS.set k v o) = JS.lookup k' o.
Proof.
  intros Hne. induction o as [| [k0 v0] o IH]; simpl.
  - destruct (k =? k')%string eqn:E; [| reflexivity].
    apply String.eqb_eq in E. congruence.
  - destruct (k0 =? k)%string eqn:E; simpl.
    + apply String.eqb_eq in E. subst k0.
      destruct (k =? k')%string eqn:E'; [| reflexivity].
      apply String.eqb_eq in E'. congruence.
    + destruct (k0 =? k')%string; [reflexivity | exact IH].
Qed.

Lemma keys_set (k : string) (v : Value) (o : list (string * Value)) :
  In k (keys o) /\ keys (JS.set k v o) = keys o
  \/ ~ In k (keys o) /\ keys (JS.set k v o) = (keys o ++ [k])%list.
Proof.
  unfold keys. induction o as [| [k' v'] o IH]; simpl.
  - right. split; [tauto | reflexivity].
  - destruct (k' =? k)%string eqn:E.
    + apply String.eqb_eq in E. subst k'. left. simpl. auto.
    + apply String.eqb_neq in E. simpl.
      destruct IH as [[Hin Heq] | [Hnin Heq]].
      * left. split; [auto | now rewrite Heq].
      * right. split; [intros [H | H]; congruence | now rewrite Heq].
Qed.

Lemma NoDup_keys_set (k : string) (v : Value) (o : list (string * Value)) :
  NoDup (keys o) -> NoDup (keys (JS.set k v o)).
Proof.
  intros Hnd. destruct (keys_set k v o) as [[_ Heq] | [Hnin Heq]];
    rewrite Heq; [exact Hnd |].
  apply NoDup_app; [exact Hnd | repeat constructor; simpl; tauto |].
  intros x Hx [Hk | []]. congruence.
Qed.

Lemma lookup_In_keys (k : string) (v : Value) (o : list (string * Value)) :
  JS.lookup k o = Some v -> In k (keys o).
Proof.
  unfold keys. induction o as [| [k' v'] o IH]; simpl; [discriminate |].
  destruct (k' =? k)%string eqn:E.
  - apply String.eqb_eq in E. auto.
  - auto.
Qed.

(** A key that is looked up and found in an object without repeated keys
    occurs once. *)
Lemma single_key (k : string) (v : Value) (o : list (string * Value)) :
  NoDup (keys o) -> JS.lookup k o = Some v ->
  count_occ string_dec (keys o) k = 1%nat.
Proof.
  intros Hnd Hl. apply lookup_In_keys in Hl.
  apply NoDup_count_occ' with (decA := string_dec) in Hl; assumption.
Qed.

Lemma concat_strings (sep : string) (l : list string) :
  JS.join sep (map VStr l) = String.concat sep l.
Proof.
  unfold JS.join. rewrite map_map. simpl. now rewrite map_id.
Qed.

(** Only an object can hold an array under a property name. *)
Lemma opt_member_array [v : Value] [k : string] [l : list Value] :
  JS.opt_member v k = VArr l -> exists o, v = VObj o.
Proof.
  unfold JS.opt_member, JS.member.
  destruct v; simpl; try discriminate; eauto;
    destruct (k =? "length")%string; discriminate.
Qed.

(* ===================================================================== *)
(** ** Scenarios *)
(* ===================================================================== *)

(** [get_app_info] with [{appId: "123"}]: one [GET /apps/123] with the
    bearer token and no query parameter on the wire; the 200 response is
    returned as indented JSON. *)
Example get_app_info_scenario :
  let run := call_tool Sample.config (Sample.world (Some "PEM") Sample.ok_app)
               {| name := "get_app_info";
                  arguments := VObj [("appId", VStr "123")] |} in
  map (fun r => (method r, url r, headers r, sent_params r))
      (http_requests (trace run))
  = [(GET, "/apps/123", [("Authorization", Bearer Sample.token)], [])]
  /\ outcome run = inr (text_content (JSON.stringify Sample.app_data 2)).
Proof. split; reflexivity. Qed.

(** [create_customer_review_response] with
    [{reviewId: "r1", responseBody: "Thanks!"}]: one POST with the
    envelope of the request-shaping table. *)
Example create_response_scenario :
  map (fun r => (method r, url r, data r))
      (http_requests
         (trace (call_tool Sample.config
                   (Sample.world (Some "PEM") Sample.ok_app)
                   {| name := "create_customer_review_response";
                      arguments := VObj [("reviewId", VStr "r1");
                                         ("responseBody", VStr "Thanks!")]
                   |})))
  = [(POST, "/customerReviewResponses",
      Some (VObj [("data", VObj [
        ("type", VStr "customerReviewResponses");
        ("attributes", VObj [("responseBody", VStr "Thanks!")]);
        ("relationships", VObj [
          ("review", VObj [
            ("data", VObj [("id", VStr "r1");
                           ("type", VStr "customerReviews")])])])])]))].
Proof. reflexivity. Qed.

(** A call without an arguments object: [list_apps] and [list_users] go
    through with the default limit, [get_app_info] stops at the
    destructuring. *)
Example no_arguments_scenario :
  map (fun tool =>
         map (fun r => params r)
             (http_requests
                (trace (call_tool Sample.config
                          (Sample.world (Some "PEM") Sample.ok_app)
                          {| name := tool; arguments := VUndefined |}))))
      ["list_apps"; "list_users"; "get_app_info"]
  = [[[("limit", VNum 100)]]; [[("limit", VNum 100)]]; []].
Proof. reflexivity. Qed.

(* ===================================================================== *)
(** ** The issuer, step by step *)
(* ===================================================================== *)

Lemma generateToken_issuance (config : AppStoreConnectConfig) (w : World) :
  issuance config w (generateToken config w).
Proof.
  unfold generateToken, readFile, Jwt.sign. simpl.
  destruct (read_file w (privateKeyPath config)) as [key |] eqn:Hread; simpl.
  - change (now_ms w / 1000 + 1200000 / 1000) with (now_ms w / 1000 + 1200).
    fold (issued_header config). fold (issued_payload config w).
    destruct (es256 w key (issued_header config) (issued_payload config w))
      as [sig |] eqn:Hsig; simpl.
    + now apply token_signed.
    + now apply key_unusable.
  - now apply key_unreadable.
Qed.

Lemma generateToken_error_not_axios config w [t e] :
  generateToken config w = (t, inl e) -> isAxiosError e = false.
Proof.
  intros H. pose proof (generateToken_issuance config w) as Hi.
  rewrite H in Hi. inversion Hi; reflexivity.
Qed.

Lemma generateToken_reads_first config w :
  exists rest,
    trace (generateToken config w) = ReadFile (privateKeyPath config) :: rest
    /\ http_requests rest = [].
Proof.
  destruct (generateToken_issuance config w); simpl; eauto.
Qed.

(* ===================================================================== *)
(** ** The statements of a case throw no axios error *)
(* ===================================================================== *)

Ltac exc_left H :=
  cbv beta zeta in H;
  lazymatch type of H with
  | ebind _ _ = inl _ =>
      apply ebind_inl in H; destruct H as [H | (? & _ & H)]
  end.

Lemma destructure_throws args k e :
  destructure args k = inl e -> isAxiosError e = false.
Proof.
  unfold destructure. destruct (JS.nullish args); intros H;
    inversion H; reflexivity.
Qed.

Lemma destructure_default_throws args k d e :
  destructure_default args k d = inl e -> isAxiosError e = false.
Proof.
  unfold destructure_default. intros H.
  exc_left H; [eapply destructure_throws; eauto | discriminate].
Qed.

Lemma call_join_throws expr x sep e :
  call_join expr x sep = inl e -> isAxiosError e = false.
Proof.
  destruct x; simpl; intros H; inversion H; reflexivity.
Qed.

Lemma opt_call_join_throws expr x sep e :
  opt_call_join expr x sep = inl e -> isAxiosError e = false.
Proof.
  unfold opt_call_join. destruct (JS.nullish x); [discriminate |].
  destruct x; intros H; inversion H; reflexivity.
Qed.

Lemma assign_joined_throws expr k x params e :
  assign_joined expr k x params = inl e -> isAxiosError e = false.
Proof.
  unfold assign_joined. destruct (JS.truthy _); [| discriminate].
  intros H. exc_left H; [eapply call_join_throws; eauto | discriminate].
Qed.

Create HintDb throws.

#[local] Hint Resolve destructure_throws destructure_default_throws
  call_join_throws opt_call_join_throws assign_joined_throws : throws.

Ltac throws H :=
  cbv beta zeta in H;
  lazymatch type of H with
  | ebind _ _ = inl _ =>
      apply ebind_inl in H; destruct H as [H | (? & _ & H)];
      [throws H | throws H]
  | (if ?b then _ else _) = inl _ => destruct b; throws H
  | _ => solve [eauto with throws | discriminate H
               | inversion H; reflexivity]
  end.

Lemma review_params_throws w args e :
  review_params w args = inl e -> isAxiosError e = false.
Proof. unfold review_params. intros H. throws H. Qed.

#[local] Hint Resolve review_params_throws : throws.

Lemma switch_throws w name args token [e] :
  switch w name args token = inl e -> isAxiosError e = false.
Proof.
  unfold switch, list_apps, list_beta_groups, get_app_info, list_users,
    list_customer_reviews, list_customer_reviews_for_version,
    create_customer_review_response, delete_customer_review_response,
    get_customer_review_response.
  intros H. throws H.
Qed.

(* ===================================================================== *)
(** ** The course of a tool call *)
(* ===================================================================== *)

Lemma axios_request_trace w request :
  trace (axios_request w request) = [Http request].
Proof.
  unfold axios_request, emit, bind, throw, ret, trace.
  destruct (upstream w request) as [r | m]; [| reflexivity].
  destruct ((200 <=? status r) && (status r <? 300)); reflexivity.
Qed.

Lemma axios_request_throws w request e :
  outcome (axios_request w request) = inl e -> isAxiosError e = true.
Proof.
  unfold axios_request, emit, bind, throw, ret, outcome.
  destruct (upstream w request) as [r | m]; simpl.
  - destruct ((200 <=? status r) && (status r <? 300)); simpl;
      intros H; inversion H; reflexivity.
  - intros H; inversion H; reflexivity.
Qed.

Lemma on_error_rethrows e :
  isAxiosError e = false -> on_error e = ([], inl e).
Proof. destruct e; simpl; intros H; (reflexivity || discriminate). Qed.

(** The issuer fails: the call ends there, with the issuer's exception. *)
Lemma call_tool_issuer_fails config w req [t e] :
  generateToken config w = (t, inl e) ->
  call_tool config w req = (t, inl e).
Proof.
  intros H. unfold call_tool. rewrite H. simpl.
  rewrite (on_error_rethrows e (generateToken_error_not_axios config w H)).
  now rewrite app_nil_r.
Qed.

(** The token is issued and the statements of the case throw: the call
    ends with that exception and nothing is sent. *)
Lemma call_tool_case_throws config w req [t token e] :
  generateToken config w = (t, inr token) ->
  switch w (name req) (arguments req) token = inl e ->
  call_tool config w req = (t, inl e).
Proof.
  intros Ht Hs. unfold call_tool. rewrite Ht. simpl. rewrite Hs. simpl.
  rewrite (on_error_rethrows e (switch_throws w _ _ _ Hs)). simpl.
  now rewrite !app_nil_r.
Qed.

(** The token is issued and the case leaves a plan: the request of the
    plan is sent, and the call returns the result of the plan or goes
    through the [catch] block. *)
Lemma call_tool_exchange config w req [t token plan] :
  generateToken config w = (t, inr token) ->
  switch w (name req) (arguments req) token = inr plan ->
  call_tool config w req =
    ((t ++ [Http (request plan)])%list,
     match outcome (axios_request w (request plan)) with
     | inr response => inr (result plan response)
     | inl e => outcome (on_error e)
     end).
Proof.
  intros Ht Hs. unfold call_tool. rewrite Ht. simpl. rewrite Hs. simpl.
  pose proof (axios_request_trace w (request plan)) as Htr.
  destruct (axios_request w (request plan)) as [tr [e | r]] eqn:Hax;
    unfold trace in Htr; simpl in Htr; subst tr; simpl.
  - destruct e; simpl; now rewrite ?app_nil_r.
  - reflexivity.
Qed.

(** In every course the trace of the call starts with the trace of the
    issuer, and nothing but one request can follow. *)
Lemma call_tool_trace config w req :
  trace (call_tool config w req) = trace (generateToken config w)
  \/ exists token plan,
       outcome (generateToken config w) = inr token
       /\ switch w (name req) (arguments req) token = inr plan
       /\ trace (call_tool config w req)
          = (trace (generateToken config w) ++ [Http (request plan)])%list.
Proof.
  destruct (generateToken config w) as [t [e | token]] eqn:Ht.
  - left. now rewrite (call_tool_issuer_fails config w req Ht).
  - destruct (switch w (name req) (arguments req) token) as [e | plan] eqn:Hs.
    + left. now rewrite (call_tool_case_throws config w req Ht Hs).
    + right. exists token, plan.
      rewrite (call_tool_exchange config w req Ht Hs). auto.
Qed.

(* ===================================================================== *)
(** ** Required arguments *)
(* ===================================================================== *)

Lemma declared_required_cases tool r :
  In r (declared_required tool) ->
  (tool = "get_app_info" /\ r = "appId")
  \/ (tool = "list_customer_reviews" /\ r = "appId")
  \/ (tool = "list_customer_reviews_for_version" /\ r = "versionId")
  \/ (tool = "create_customer_review_response"
      /\ (r = "reviewId" \/ r = "responseBody"))
  \/ (tool = "delete_customer_review_response" /\ r = "responseId")
  \/ (tool = "get_customer_review_response" /\ r = "reviewId").
Proof.
  unfold declared_required, tools. cbn [find tool_name].
  repeat match goal with
         | |- context [(?s =? tool)%string] =>
             destruct (String.eqb_spec s tool) as [<- | _];
             [cbn; intros H; intuition (subst; auto) |]
         end.
  intros [].
Qed.

(** The check of a case on a required argument is [!v]: a falsy value stops
    the case with [InvalidParams], whatever the other arguments are. *)
Lemma switch_rejects_falsy tool r :
  In r (declared_required tool) ->
  exists msg, forall w o token,
    JS.truthy (JS.member (VObj o) r) = false ->
    switch w tool (VObj o) token = inl (McpError InvalidParams msg).
Proof.
  intros H. apply declared_required_cases in H.
  destruct H
    as [[-> ->] | [[-> ->] | [[-> ->] | [[-> H] | [[-> ->] | [-> ->]]]]]];
    try (eexists; intros w o token Hf; unfold switch;
         cbn [String.eqb Ascii.eqb Bool.eqb]; cbv beta iota;
         unfold get_app_info, list_customer_reviews,
           list_customer_reviews_for_version,
           delete_customer_review_response, get_customer_review_response;
         rewrite !destructure_object; cbn [ebind]; rewrite Hf; reflexivity).
  exists "reviewId and responseBody are required". intros w o token Hf.
  unfold switch; cbn [String.eqb Ascii.eqb Bool.eqb]; cbv beta iota.
  unfold create_customer_review_response.
  rewrite !destructure_object; cbn [ebind].
  destruct H as [-> | ->]; rewrite Hf; cbn [negb orb];
    rewrite ?orb_true_r; reflexivity.
Qed.

Lemma lookup_omit k o : JS.lookup k (omit k o) = None.
Proof.
  induction o as [| [k' v] o IH]; simpl; [reflexivity |].
  destruct (k' =? k)%string eqn:E; simpl; [exact IH | now rewrite E].
Qed.

Lemma member_absent k o :
  JS.lookup k o = None -> JS.truthy (JS.member (VObj o) k) = false.
Proof. simpl. now intros ->. Qed.

Lemma member_empty_string k o :
  JS.lookup k o = Some (VStr "") -> JS.truthy (JS.member (VObj o) k) = false.
Proof. simpl. now intros ->. Qed.

(** A call whose required argument is falsy: nothing is sent; the outcome
    is the issuer's exception, or [InvalidParams] once the token is
    issued. *)
Lemma call_tool_rejects_falsy config w tool r :
  In r (declared_required tool) ->
  exists msg, forall o,
    JS.truthy (JS.member (VObj o) r) = false ->
    let run := call_tool config w {| name := tool; arguments := VObj o |} in
    trace run = trace (generateToken config w)
    /\ match outcome (generateToken config w) with
       | inr _ => outcome run = inl (McpError InvalidParams msg)
       | inl e => outcome run = inl e
       end.
Proof.
  intros Hr. destruct (switch_rejects_falsy tool r Hr) as [msg Hmsg].
  exists msg. intros o Hf run. subst run.
  destruct (generateToken config w) as [t [e | token]] eqn:Ht.
  - rewrite (call_tool_issuer_fails config w _ Ht). simpl. auto.
  - rewrite (call_tool_case_throws config w
               {| name := tool; arguments := VObj o |} Ht (Hmsg w o token Hf)).
    simpl. auto.
Qed.

Lemma issuer_sends_nothing config w :
  http_requests (trace (generateToken config w)) = [].
Proof. destruct (generateToken_issuance config w); reflexivity. Qed.

(* ===================================================================== *)
(** ** Claims on the issuer and on the order of the steps *)
(* ===================================================================== *)

(** C2. Every token that [generateToken] produces is signed with ES256,
    carries the audience [appstoreconnect-v1], the configured key
    identifier and issuer, is issued at the current second and expires
    no later than twenty minutes after the time of issuance; the issuance
    reads the configured key file in that very call and signs with what
    the file holds then. *)
Theorem generateToken_claims config w token :
  outcome (generateToken config w) = inr token ->
  alg (header token) = "ES256"
  /\ aud (payload token) = "appstoreconnect-v1"
  /\ kid (header token) = keyId config
  /\ iss (payload token) = issuerId config
  /\ iat (payload token) = now_ms w / 1000
  /\ 1000 * exp (payload token) <= now_ms w + 20 * 60 * 1000
  /\ exists key,
       trace (generateToken config w)
         = [ReadFile (privateKeyPath config); Sign key]
       /\ read_file w (privateKeyPath config) = Some key
       /\ es256 w key (header token) (payload token)
          = Some (signature token).
Proof.
  intros H.
  destruct (generateToken_issuance config w)
    as [Hr | key Hr Hs | key sig Hr Hs];
    simpl in H; try discriminate.
  inversion H; subst token; clear H.
  cbn [header payload signature alg aud kid iss iat exp
       issued_header issued_payload trace fst].
  repeat split; try reflexivity.
  - pose proof (Z.mul_div_le (now_ms w) 1000 ltac:(lia)). lia.
  - exists key. auto.
Qed.

Lemma generateToken_claims_witness :
  alg (header Sample.token) = "ES256"
  /\ aud (payload Sample.token) = "appstoreconnect-v1"
  /\ kid (header Sample.token) = "2X9R4HXF34"
  /\ iss (payload Sample.token) = "57246542-96fe-1a63-e053-0824d011072a"
  /\ iat (payload Sample.token) = 1700000000
  /\ 1000 * exp (payload Sample.token) <= 1700000000123 + 20 * 60 * 1000
  /\ exists key,
       trace (generateToken Sample.config
                (Sample.world (Some "PEM") Sample.ok_app))
         = [ReadFile "/keys/AuthKey.p8"; Sign key]
       /\ read_file (Sample.world (Some "PEM") Sample.ok_app)
            "/keys/AuthKey.p8" = Some key
       /\ es256 (Sample.world (Some "PEM") Sample.ok_app) key
            (header Sample.token) (payload Sample.token)
          = Some (signature Sample.token).
Proof.
  apply (generateToken_claims Sample.config
           (Sample.world (Some "PEM") Sample.ok_app) Sample.token).
  reflexivity.
Defined.

(** No call of a sequence is served from an earlier one: each reads the
    key file of its own world first. *)
Lemma serve_reads_key_each_call config calls :
  Forall (fun run => exists rest,
            trace run = ReadFile (privateKeyPath config) :: rest)
         (serve config calls).
Proof.
  unfold serve. apply Forall_map, Forall_forall. intros [w req] _. simpl.
  destruct (generateToken_reads_first config w) as [rest [Hrest _]].
  destruct (call_tool_trace config w req) as [-> | (tok & plan & _ & _ & ->)];
    rewrite Hrest; simpl; eauto.
Qed.

(** The key is replaced between two calls: the second token is signed with
    the new key. *)
Example key_rotation :
  map (fun run => files_read (trace run))
      (serve Sample.config
         [(Sample.world (Some "OLD") Sample.ok_app,
           {| name := "list_apps"; arguments := VUndefined |});
          (Sample.world (Some "NEW") Sample.ok_app,
           {| name := "list_apps"; arguments := VUndefined |})])
  = [["/keys/AuthKey.p8"]; ["/keys/AuthKey.p8"]]
  /\ map (fun run => map (fun r => map snd (headers r))
                         (http_requests (trace run)))
         (serve Sample.config
            [(Sample.world (Some "OLD") Sample.ok_app,
              {| name := "list_apps"; arguments := VUndefined |});
             (Sample.world (Some "NEW") Sample.ok_app,
              {| name := "list_apps"; arguments := VUndefined |})])
     = [[[Bearer {| header := header Sample.token;
                    payload := payload Sample.token;
                    signature := "signed with OLD" |}]];
        [[Bearer {| header := header Sample.token;
                    payload := payload Sample.token;
                    signature := "signed with NEW" |}]]].
Proof. split; reflexivity. Qed.

(** C3, as the specification states it, fails: a call of [get_app_info]
    without [appId] is refused, and the key file has been read and a token
    signed by then. *)
Lemma validate_before_token_counterexample :
  ~ spec_validate_before_token Sample.config
      (Sample.world (Some "PEM") Sample.ok_app)
      {| name := "get_app_info"; arguments := VObj [] |}.
Proof.
  unfold spec_validate_before_token. intros H.
  assert (Hr : refused (Sample.world (Some "PEM") Sample.ok_app)
                 {| name := "get_app_info"; arguments := VObj [] |}).
  { intros token. exists InvalidParams, "appId is required". split; auto. }
  specialize (H Hr). vm_compute in H. discriminate H.
Qed.

(** C3, amended. The handler asks the issuer for a token first, in every
    call: the trace of a call starts with the read of the key file.  The
    statements of the case, with the check of the required arguments and
    the [default] for unknown names, run after the token is issued and
    before any request: when they throw, the call has done what the issuer
    does and nothing more, and ends with their exception. *)
Theorem token_before_validation config w req :
  (exists rest,
     trace (call_tool config w req) = ReadFile (privateKeyPath config) :: rest)
  /\ forall token e,
       outcome (generateToken config w) = inr token ->
       switch w (name req) (arguments req) token = inl e ->
       trace (call_tool config w req) = trace (generateToken config w)
       /\ outcome (call_tool config w req) = inl e
       /\ http_requests (trace (call_tool config w req)) = [].
Proof.
  split.
  - destruct (generateToken_reads_first config w) as [rest [Hrest _]].
    destruct (call_tool_trace config w req)
      as [-> | (tok & plan & _ & _ & ->)]; rewrite Hrest; simpl; eauto.
  - intros token e Ht Hs.
    destruct (generateToken config w) as [t r] eqn:Hg. simpl in Ht. subst r.
    pose proof (issuer_sends_nothing config w) as Hn. rewrite Hg in Hn.
    rewrite (call_tool_case_throws config w req Hg Hs). simpl.
    repeat split. exact Hn.
Qed.

Lemma token_before_validation_witness :
  trace (call_tool Sample.config (Sample.world (Some "PEM") Sample.ok_app)
           {| name := "no_such_tool"; arguments := VObj [] |})
  = trace (generateToken Sample.config
             (Sample.world (Some "PEM") Sample.ok_app))
  /\ outcome (call_tool Sample.config
                (Sample.world (Some "PEM") Sample.ok_app)
                {| name := "no_such_tool"; arguments := VObj [] |})
     = inl (McpError MethodNotFound "Unknown tool: no_such_tool")
  /\ http_requests
       (trace (call_tool Sample.config
                 (Sample.world (Some "PEM") Sample.ok_app)
                 {| name := "no_such_tool"; arguments := VObj [] |})) = [].
Proof.
  apply (proj2 (token_before_validation Sample.config
                  (Sample.world (Some "PEM") Sample.ok_app)
                  {| name := "no_such_tool"; arguments := VObj [] |})
           Sample.token);
    reflexivity.
Defined.

(* ===================================================================== *)
(** ** Claims on the required arguments *)
(* ===================================================================== *)

(** C1, as the specification states it, fails: when the key file cannot be
    read, a call of [get_app_info] without [appId] ends with the exception
    of the file read, not with [InvalidParams]. *)
Lemma missing_required_counterexample :
  ~ spec_missing_required Sample.config (Sample.world None Sample.ok_app)
      "get_app_info" [].
Proof.
  intros H.
  destruct (H "appId") as [[msg Hmsg] _];
    [vm_compute; auto | reflexivity |].
  vm_compute in Hmsg. discriminate Hmsg.
Qed.

(** C1, amended. A call whose arguments object lacks a declared required
    argument sends no HTTP request.  The token is asked for first: when
    the issuer produces one, the call fails with [InvalidParams]; when the
    issuer fails, the call fails with the issuer's exception. *)
Theorem missing_required_argument config w tool o r :
  In r (declared_required tool) ->
  JS.lookup r o = None ->
  let run := call_tool config w {| name := tool; arguments := VObj o |} in
  sends_nothing run
  /\ match outcome (generateToken config w) with
     | inr _ => fails_with InvalidParams run
     | inl e => outcome run = inl e
     end.
Proof.
  intros Hr Ho run.
  destruct (call_tool_rejects_falsy config w tool r Hr) as [msg Hmsg].
  destruct (Hmsg o (member_absent r o Ho)) as [Htr Hout]. fold run in Htr, Hout.
  split.
  - unfold sends_nothing. rewrite Htr. apply issuer_sends_nothing.
  - destruct (outcome (generateToken config w)); [exact Hout |].
    exists msg. exact Hout.
Qed.

Lemma missing_required_argument_witness :
  sends_nothing
    (call_tool Sample.config (Sample.world (Some "PEM") Sample.ok_app)
       {| name := "create_customer_review_response";
          arguments := VObj [("reviewId", VStr "r1")] |})
  /\ fails_with InvalidParams
       (call_tool Sample.config (Sample.world (Some "PEM") Sample.ok_app)
          {| name := "create_customer_review_response";
             arguments := VObj [("reviewId", VStr "r1")] |}).
Proof.
  apply (missing_required_argument Sample.config
           (Sample.world (Some "PEM") Sample.ok_app)
           "create_customer_review_response" [("reviewId", VStr "r1")]
           "responseBody").
  - vm_compute. auto.
  - reflexivity.
Defined.

(** C10, as stated, fails in the same world: with the key file unreadable,
    a call of [get_app_info] with [appId] the empty string ends with the
    exception of the file read. *)
Lemma empty_required_counterexample :
  ~ spec_empty_required Sample.config (Sample.world None Sample.ok_app)
      "get_app_info" [("appId", VStr "")].
Proof.
  intros H.
  destruct (H "appId") as [[msg Hmsg] _];
    [vm_compute; auto | reflexivity |].
  vm_compute in Hmsg. discriminate Hmsg.
Qed.

(** C10, amended. The check of a required argument is by falsiness: a call
    that gives the empty string for a declared required argument runs
    exactly as the call without that argument (same effects, same
    outcome), and sends no HTTP request; it fails with [InvalidParams]
    when the issuer produces a token, and with the issuer's exception
    otherwise. *)
Theorem empty_string_as_omitted config w tool o r :
  In r (declared_required tool) ->
  JS.lookup r o = Some (VStr "") ->
  let run := call_tool config w {| name := tool; arguments := VObj o |} in
  run = call_tool config w
          {| name := tool; arguments := VObj (omit r o) |}
  /\ sends_nothing run
  /\ match outcome (generateToken config w) with
     | inr _ => fails_with InvalidParams run
     | inl e => outcome run = inl e
     end.
Proof.
  intros Hr Ho run.
  destruct (call_tool_rejects_falsy config w tool r Hr) as [msg Hmsg].
  destruct (Hmsg o (member_empty_string r o Ho)) as [Htr Hout].
  destruct (Hmsg (omit r o) (member_absent r _ (lookup_omit r o)))
    as [Htr' Hout'].
  fold run in Htr, Hout.
  repeat split.
  - destruct run as [t x], (call_tool config w _) as [t' x'].
    unfold trace, outcome in *. simpl in *.
    destruct (snd (generateToken config w)); congruence.
  - unfold sends_nothing. rewrite Htr. apply issuer_sends_nothing.
  - destruct (outcome (generateToken config w)); [exact Hout |].
    exists msg. exact Hout.
Qed.

Lemma empty_string_as_omitted_witness :
  call_tool Sample.config (Sample.world (Some "PEM") Sample.ok_app)
    {| name := "delete_customer_review_response";
       arguments := VObj [("responseId", VStr "")] |}
  = call_tool Sample.config (Sample.world (Some "PEM") Sample.ok_app)
      {| name := "delete_customer_review_response"; arguments := VObj [] |}
  /\ sends_nothing
       (call_tool Sample.config (Sample.world (Some "PEM") Sample.ok_app)
          {| name := "delete_customer_review_response";
             arguments := VObj [("responseId", VStr "")] |})
  /\ fails_with InvalidParams
       (call_tool Sample.config (Sample.world (Some "PEM") Sample.ok_app)
          {| name := "delete_customer_review_response";
             arguments := VObj [("responseId", VStr "")] |}).
Proof.
  apply (empty_string_as_omitted Sample.config
           (Sample.world (Some "PEM") Sample.ok_app)
           "delete_customer_review_response" [("responseId", VStr "")]
           "responseId").
  - vm_compute. auto.
  - reflexivity.
Defined.

(* ===================================================================== *)
(** ** Query parameters, one assignment at a time *)
(* ===================================================================== *)

Lemma assign_if_other c k v p k' :
  k' <> k -> JS.lookup k' (assign_if c k v p) = JS.lookup k' p.
Proof.
  intros H. unfold assign_if. destruct c; [| reflexivity].
  now apply lookup_set_other.
Qed.

Lemma assign_if_NoDup c k v p :
  NoDup (keys p) -> NoDup (keys (assign_if c k v p)).
Proof.
  unfold assign_if. destruct c; [apply NoDup_keys_set | auto].
Qed.

Lemma assign_array_joined_other k x p k' :
  k' <> k -> JS.lookup k' (assign_array_joined k x p) = JS.lookup k' p.
Proof.
  intros H. unfold assign_array_joined.
  destruct x; try reflexivity. now apply assign_if_other.
Qed.

Lemma assign_array_joined_NoDup k x p :
  NoDup (keys p) -> NoDup (keys (assign_array_joined k x p)).
Proof.
  unfold assign_array_joined. destruct x; auto. apply assign_if_NoDup.
Qed.

Lemma assign_joined_inr [expr k x p p'] :
  assign_joined expr k x p = inr p' ->
  (JS.truthy (JS.opt_member x "length") = false /\ p' = p)
  \/ (exists l, x = VArr l /\ l <> []
                /\ p' = JS.set k (VStr (JS.join "," l)) p).
Proof.
  unfold assign_joined.
  destruct (JS.truthy (JS.opt_member x "length")) eqn:E.
  - destruct x; simpl; try discriminate.
    intros H. inversion H. right. exists l. repeat split.
    intros ->. discriminate E.
  - intros H. inversion H. auto.
Qed.

Lemma assign_joined_other [expr k x p p'] k' :
  assign_joined expr k x p = inr p' ->
  k' <> k -> JS.lookup k' p' = JS.lookup k' p.
Proof.
  intros H Hne.
  destruct (assign_joined_inr H) as [[_ ->] | (l & _ & _ & ->)];
    [reflexivity | now apply lookup_set_other].
Qed.

Lemma assign_joined_NoDup [expr k x p p'] :
  assign_joined expr k x p = inr p' -> NoDup (keys p) -> NoDup (keys p').
Proof.
  intros H Hnd.
  destruct (assign_joined_inr H) as [[_ ->] | (l & _ & _ & ->)];
    [assumption | now apply NoDup_keys_set].
Qed.

(** A non-empty array of strings is written as its elements joined by
    commas, in their order. *)
Lemma assign_joined_strings expr k l p p' :
  l <> [] ->
  assign_joined expr k (VArr (map VStr l)) p = inr p' ->
  JS.lookup k p' = Some (VStr (String.concat "," l)).
Proof.
  intros Hl H.
  destruct (assign_joined_inr H) as [[E _] | (l' & Hx & _ & ->)].
  - destruct l; [congruence | discriminate E].
  - inversion Hx; subst l'. rewrite lookup_set_same.
    now rewrite concat_strings.
Qed.

(** An empty array is not written at all. *)
Lemma assign_joined_empty expr k p :
  assign_joined expr k (VArr []) p = inr p.
Proof. reflexivity. Qed.

Lemma assign_array_joined_strings k l p :
  l <> [] ->
  JS.lookup k (assign_array_joined k (VArr (map VStr l)) p)
  = Some (VStr (String.concat "," l)).
Proof.
  intros Hl. unfold assign_array_joined, assign_if.
  destruct l as [| s l]; [congruence |]. rewrite length_map.
  replace (0 <? Z.of_nat (List.length (s :: l))) with true
    by (symmetry; apply Z.ltb_lt; simpl List.length; lia).
  rewrite lookup_set_same. now rewrite concat_strings.
Qed.

Ltac exc_right H :=
  repeat (cbv beta zeta in H;
          lazymatch type of H with
          | ebind (destructure _ _) _ = inr _ =>
              let v := fresh "v" in
              let Hd := fresh "Hd" in
              apply ebind_inr in H; destruct H as (v & Hd & H);
              apply destructure_inr in Hd; destruct Hd as [? ->]
          | ebind _ _ = inr _ =>
              let p := fresh "p" in
              let Hp := fresh "Hp" in
              apply ebind_inr in H; destruct H as (p & Hp & H)
          end).

(** Rewrites a lookup back through the assignments to other keys. *)
Ltac lookup_back :=
  repeat first
    [ rewrite assign_if_other by discriminate
    | rewrite assign_array_joined_other by discriminate
    | match goal with
      | H : assign_joined _ ?k _ _ = inr ?p |- context [JS.lookup _ ?p] =>
          rewrite (assign_joined_other _ H) by discriminate
      end ].

Ltac keys_NoDup :=
  repeat first
    [ apply assign_if_NoDup
    | apply assign_array_joined_NoDup
    | match goal with
      | H : assign_joined _ _ _ _ = inr ?p |- NoDup (keys ?p) =>
          apply (assign_joined_NoDup H)
      end
    | solve [repeat constructor; simpl; tauto] ].

Lemma review_params_spec w args [params] :
  review_params w args = inr params ->
  NoDup (keys params)
  /\ (forall arg key l,
        In (arg, key) review_list_arguments ->
        JS.member args arg = VArr (map VStr l) ->
        (l <> [] -> JS.lookup key params = Some (VStr (String.concat "," l)))
        /\ (l = [] -> JS.lookup key params = None))
  /\ JS.lookup "limit" params = review_limit w (JS.member args "limit").
Proof.
  unfold review_params. intros H. exc_right H.
  split; [| split].
  - keys_NoDup.
  - intros arg key l Hin Harg.
    simpl in Hin.
    repeat (destruct Hin as [Hin | Hin];
            [ inversion Hin; subst arg key; rewrite Harg in *; split; intros Hl;
              [ lookup_back; eapply assign_joined_strings; eassumption
              | subst l; simpl map in *;
                repeat match goal with
                       | Hp : assign_joined _ _ (VArr []) _ = inr _ |- _ =>
                           rewrite assign_joined_empty in Hp;
                           inversion Hp; subst; clear Hp
                       end;
                lookup_back; reflexivity ]
            | ]).
    destruct Hin.
  - lookup_back. unfold review_limit, assign_if.
    destruct (typeof (JS.member args "limit") =? "number")%string.
    + apply lookup_set_same.
    + lookup_back. reflexivity.
Qed.

Lemma member_array_truthy v k l :
  JS.member v k = VArr l -> JS.truthy v = true.
Proof.
  destruct v; simpl; try discriminate; auto;
    destruct (k =? "length")%string; discriminate.
Qed.

Lemma list_users_spec w args token [plan] :
  list_users w args token = inr plan ->
  let a := JS.or_else args (VObj []) in
  NoDup (keys (params (request plan)))
  /\ JS.lookup "limit" (params (request plan))
     = Some (users_limit w (JS.member a "limit"))
  /\ (forall arg key l,
        In (arg, key) [("roles", "filter[roles]");
                       ("visibleApps", "filter[visibleApps]")] ->
        JS.member (JS.member a "filter") arg = VArr (map VStr l) ->
        (l <> [] -> JS.lookup key (params (request plan))
                    = Some (VStr (String.concat "," l)))
        /\ (l = [] -> JS.lookup key (params (request plan)) = None))
  /\ (forall l,
        JS.member a "include" = VArr (map VStr l) ->
        (l <> [] -> JS.lookup "include" (params (request plan))
                    = Some (VStr (String.concat "," l)))
        /\ (l = [] -> JS.lookup "include" (params (request plan)) = None)).
Proof.
  intros H a. unfold list_users in H. fold a in H.
  exc_right H. unfold destructure_default in Hp. exc_right Hp.
  inversion Hp; subst p; clear Hp.
  inversion H; subst plan; clear H.
  cbn [request params http_get].
  destruct (JS.truthy (JS.member a "filter")) eqn:Hf.
  - exc_right Hp0. rename Hp0 into Hlast.
    split; [| split; [| split]].
    + keys_NoDup.
    + lookup_back. reflexivity.
    + intros arg key l Hin Harg. simpl in Hin.
      repeat (destruct Hin as [Hin | Hin];
              [ inversion Hin; subst arg key; rewrite Harg in *; split;
                intros Hl;
                [ lookup_back; eapply assign_joined_strings; eassumption
                | subst l; simpl map in *;
                  repeat match goal with
                         | Hp : assign_joined _ _ (VArr []) _ = inr _ |- _ =>
                             rewrite assign_joined_empty in Hp;
                             inversion Hp; subst; clear Hp
                         end;
                  lookup_back; reflexivity ]
              | ]).
      destruct Hin.
    + intros l Harg. rewrite Harg. split; intros Hl.
      * now apply assign_array_joined_strings.
      * subst l. simpl. lookup_back. reflexivity.
  - inversion Hp0; subst p0; clear Hp0.
    split; [| split; [| split]].
    + keys_NoDup.
    + lookup_back. reflexivity.
    + intros arg key l _ Harg. apply member_array_truthy in Harg. congruence.
    + intros l Harg. rewrite Harg. split; intros Hl.
      * now apply assign_array_joined_strings.
      * subst l. simpl. lookup_back. reflexivity.
Qed.

Lemma opt_member_object [v k o] :
  JS.opt_member v k = VObj o -> exists o', v = VObj o'.
Proof.
  unfold JS.opt_member, JS.member.
  destruct v; simpl; try discriminate; eauto;
    destruct (k =? "length")%string; discriminate.
Qed.

Lemma opt_member_array_member [v k l] :
  JS.opt_member v k = VArr l -> JS.member v k = VArr l.
Proof.
  unfold JS.opt_member. destruct (JS.nullish v); [discriminate | auto].
Qed.

Lemma or_else_object o d : JS.or_else (VObj o) d = VObj o.
Proof. reflexivity. Qed.

Lemma get_app_info_spec args token [plan] l :
  get_app_info args token = inr plan ->
  JS.member args "include" = VArr (map VStr l) ->
  params (request plan) = [("include", VStr (String.concat "," l))].
Proof.
  unfold get_app_info. intros H Hinc. exc_right H. rewrite Hinc in H.
  destruct (negb (JS.truthy (JS.member args "appId"))); [discriminate |].
  simpl in H. inversion H; subst plan. simpl.
  now rewrite concat_strings.
Qed.

Lemma list_customer_reviews_params w args token [plan] :
  list_customer_reviews w args token = inr plan ->
  review_params w args = inr (params (request plan)).
Proof.
  unfold list_customer_reviews. intros H. exc_right H.
  destruct (negb (JS.truthy (JS.member args "appId"))); [discriminate |].
  exc_right H. inversion H; subst plan. exact Hp.
Qed.

Lemma list_customer_reviews_for_version_params w args token [plan] :
  list_customer_reviews_for_version w args token = inr plan ->
  review_params w args = inr (params (request plan)).
Proof.
  unfold list_customer_reviews_for_version. intros H. exc_right H.
  destruct (negb (JS.truthy (JS.member args "versionId"))); [discriminate |].
  exc_right H. inversion H; subst plan. exact Hp.
Qed.

(* ===================================================================== *)
(** ** Claims on the query parameters *)
(* ===================================================================== *)

(** C5, as stated for arrays of any length, fails on the empty array:
    [list_customer_reviews] with [filterTerritory: []] sends no
    [filter[territory]] parameter, where the join of no element is the
    empty string. *)
Lemma joined_list_counterexample :
  ~ spec_joined_list (Sample.world (Some "PEM") Sample.ok_app)
      "list_customer_reviews" ["filterTerritory"] "filter[territory]"
      (VObj [("appId", VStr "123"); ("filterTerritory", VArr [])])
      Sample.token.
Proof.
  intros H. specialize (H [] _ eq_refl eq_refl). discriminate H.
Qed.

(** C5, amended. For every list-valued argument given as an array of one
    or more strings, the query parameter of the request is the one string
    made of those elements joined by commas, in their order, and its key
    occurs once among the parameters.  An empty array sends no parameter
    (for the [include] of [get_app_info], the empty string). *)
Theorem joined_list_parameter w tool path key args token plan l :
  In (tool, path, key) list_valued_arguments ->
  argument_at args path = VArr (map VStr l) ->
  switch w tool args token = inr plan ->
  (l <> [] ->
   JS.lookup key (params (request plan)) = Some (VStr (String.concat "," l))
   /\ count_occ string_dec (keys (params (request plan))) key = 1%nat)
  /\ (l = [] ->
      JS.lookup key (params (request plan))
      = if (tool =? "get_app_info")%string then Some (VStr "") else None).
Proof.
  intros Hin Harg Hs.
  assert (Hone : forall v, NoDup (keys (params (request plan))) ->
                   JS.lookup key (params (request plan)) = Some v ->
                   JS.lookup key (params (request plan)) = Some v
                   /\ count_occ string_dec (keys (params (request plan))) key
                      = 1%nat)
    by (intros v Hnd Hl; split; [exact Hl | eapply single_key; eauto]).
  unfold list_valued_arguments in Hin.
  repeat rewrite in_app_iff in Hin. rewrite !in_map_iff in Hin.
  destruct Hin as [Hin | [([arg k] & E & Hin) | ([arg k] & E & Hin)]].
  - simpl in Hin.
    destruct Hin as [E | [E | [E | [E | []]]]]; inversion E;
      subst tool path key;
      clear E; cbn [argument_at fold_left] in Harg.
    + (* get_app_info, include *)
      change (get_app_info args token = inr plan) in Hs.
      apply opt_member_array_member in Harg.
      rewrite (get_app_info_spec args token l Hs Harg).
      split; [intros _; split | intros ->]; reflexivity.
    + (* list_users, filter.roles *)
      change (list_users w args token = inr plan) in Hs.
      destruct (opt_member_array Harg) as [f Hf].
      destruct (opt_member_object Hf) as [o ->].
      rewrite Hf in Harg.
      destruct (list_users_spec w (VObj o) token Hs) as (Hnd & _ & Hroles & _).
      cbn [JS.or_else JS.truthy] in Hroles.
      change (JS.member (VObj o) "filter")
        with (JS.opt_member (VObj o) "filter") in Hroles.
      rewrite Hf in Hroles.
      destruct (Hroles "roles" "filter[roles]" l) as [Hne He];
        [simpl; auto | exact Harg | auto].
    + change (list_users w args token = inr plan) in Hs.
      destruct (opt_member_array Harg) as [f Hf].
      destruct (opt_member_object Hf) as [o ->].
      rewrite Hf in Harg.
      destruct (list_users_spec w (VObj o) token Hs) as (Hnd & _ & Hroles & _).
      cbn [JS.or_else JS.truthy] in Hroles.
      change (JS.member (VObj o) "filter")
        with (JS.opt_member (VObj o) "filter") in Hroles.
      rewrite Hf in Hroles.
      destruct (Hroles "visibleApps" "filter[visibleApps]" l) as [Hne He];
        [simpl; auto | exact Harg | auto].
    + change (list_users w args token = inr plan) in Hs.
      destruct (opt_member_array Harg) as [o ->].
      apply opt_member_array_member in Harg.
      destruct (list_users_spec w (VObj o) token Hs) as (Hnd & _ & _ & Hinc).
      destruct (Hinc l Harg) as [Hne He]. auto.
  - inversion E; subst tool path key; clear E.
    cbn [argument_at fold_left fst] in Harg.
    change (list_customer_reviews w args token = inr plan) in Hs.
    apply list_customer_reviews_params in Hs.
    apply opt_member_array_member in Harg.
    destruct (review_params_spec w args Hs) as (Hnd & Hl & _).
    destruct (Hl arg k l Hin Harg) as [Hne He]. auto.
  - inversion E; subst tool path key; clear E.
    cbn [argument_at fold_left fst] in Harg.
    change (list_customer_reviews_for_version w args token = inr plan) in Hs.
    apply list_customer_reviews_for_version_params in Hs.
    apply opt_member_array_member in Harg.
    destruct (review_params_spec w args Hs) as (Hnd & Hl & _).
    destruct (Hl arg k l Hin Harg) as [Hne He]. auto.
Qed.

Lemma joined_list_parameter_witness :
  JS.lookup "sort"
    (params (request
       {| request :=
            http_get "/apps/123/customerReviews" Sample.token
              [("sort", VStr "-rating,createdDate")];
          result := json_result |}))
  = Some (VStr "-rating,createdDate")
  /\ count_occ string_dec
       (keys (params (request
          {| request :=
               http_get "/apps/123/customerReviews" Sample.token
                 [("sort", VStr "-rating,createdDate")];
             result := json_result |}))) "sort" = 1%nat.
Proof.
  apply (proj1 (joined_list_parameter
                  (Sample.world (Some "PEM") Sample.ok_app)
                  "list_customer_reviews" ["sort"] "sort"
                  (VObj [("appId", VStr "123");
                         ("sort", VArr [VStr "-rating"; VStr "createdDate"])])
                  Sample.token
                  {| request :=
                       http_get "/apps/123/customerReviews" Sample.token
                         [("sort", VStr "-rating,createdDate")];
                     result := json_result |}
                  ["-rating"; "createdDate"]
                  ltac:(vm_compute; auto 20) eq_refl eq_refl)).
  discriminate.
Defined.

(** C4, as stated, fails: [list_users] with [limit: 0] sends the limit 0,
    the minimum of 0 and 200, not the default. *)
Lemma limit_counterexample :
  ~ spec_limit (Sample.world (Some "PEM") Sample.ok_app)
      "list_users" [("limit", VNum 0)] Sample.token.
Proof.
  intros H. destruct (H ltac:(simpl; auto) _ eq_refl) as (_ & Hlow & _).
  specialize (Hlow 0 eq_refl ltac:(lia)). discriminate Hlow.
Qed.

(** C4, amended. [list_users] and the two customer-review listings send a
    numeric limit [n] as the minimum of [n] and 200: exactly 200 when [n]
    is above 200, and [n] itself when it is below.  Without a limit,
    [list_apps], [list_beta_groups] and [list_users] send 100 and the
    customer-review listings send no limit.  [list_apps] and
    [list_beta_groups] send 100 for the limit 0. *)
Theorem limit_parameter w tool o token plan :
  switch w tool (VObj o) token = inr plan ->
  let sent := JS.lookup "limit" (params (request plan)) in
  let reviews := ["list_customer_reviews";
                  "list_customer_reviews_for_version"] in
  (forall n, In tool ("list_users" :: reviews) ->
             JS.lookup "limit" o = Some (VNum n) ->
             sent = Some (VNum (Z.min n 200))
             /\ (200 < n -> sent = Some (VNum 200)))
  /\ (JS.lookup "limit" o = None ->
      (In tool ["list_apps"; "list_beta_groups"; "list_users"] ->
       sent = Some (VNum 100))
      /\ (In tool reviews -> sent = None))
  /\ (In tool ["list_apps"; "list_beta_groups"] ->
      JS.lookup "limit" o = Some (VNum 0) -> sent = Some (VNum 100)).
Proof.
  intros Hs sent reviews.
  assert (Hclamp : forall n, 200 < n -> Z.min n 200 = 200) by (intros; lia).
  assert (Husers : tool = "list_users" ->
            sent = Some (users_limit w (JS.member (VObj o) "limit"))).
  { intros ->. change (list_users w (VObj o) token = inr plan) in Hs.
    destruct (list_users_spec w (VObj o) token Hs) as (_ & Hl & _).
    exact Hl. }
  assert (Hreviews : In tool reviews ->
            sent = review_limit w (JS.member (VObj o) "limit")).
  { intros [<- | [<- | []]].
    - change (list_customer_reviews w (VObj o) token = inr plan) in Hs.
      apply list_customer_reviews_params in Hs.
      destruct (review_params_spec w (VObj o) Hs) as (_ & _ & Hl). exact Hl.
    - change (list_customer_reviews_for_version w (VObj o) token = inr plan)
        in Hs.
      apply list_customer_reviews_for_version_params in Hs.
      destruct (review_params_spec w (VObj o) Hs) as (_ & _ & Hl). exact Hl. }
  assert (Hplain : In tool ["list_apps"; "list_beta_groups"] ->
            sent = Some (JS.or_else (JS.member (VObj o) "limit") (VNum 100))).
  { subst sent. intros [<- | [<- | []]]; inversion Hs; reflexivity. }
  assert (Hmember : forall v, JS.lookup "limit" o = Some v ->
            JS.member (VObj o) "limit" = v)
    by (intros v Hv; cbn [JS.member]; now rewrite Hv).
  assert (Habsent : JS.lookup "limit" o = None ->
            JS.member (VObj o) "limit" = VUndefined)
    by (intros Hv; cbn [JS.member]; now rewrite Hv).
  split; [| split].
  - intros n [<- | Hin] Hn.
    + rewrite (Husers eq_refl), (Hmember _ Hn).
      change (users_limit w (VNum n)) with (VNum (Z.min n 200)).
      split; [reflexivity | intros Hgt; now rewrite Hclamp].
    + rewrite (Hreviews Hin), (Hmember _ Hn).
      change (review_limit w (VNum n)) with (Some (VNum (Z.min n 200))).
      split; [reflexivity | intros Hgt; now rewrite Hclamp].
  - intros Hnone. split.
    + intros [<- | [<- | [<- | []]]].
      * rewrite Hplain, (Habsent Hnone) by (simpl; auto). reflexivity.
      * rewrite Hplain, (Habsent Hnone) by (simpl; auto). reflexivity.
      * rewrite (Husers eq_refl), (Habsent Hnone). reflexivity.
    + intros Hin. rewrite (Hreviews Hin), (Habsent Hnone). reflexivity.
  - intros Hin Hzero. rewrite (Hplain Hin), (Hmember _ Hzero). reflexivity.
Qed.

Lemma limit_parameter_witness :
  JS.lookup "limit"
    (params (request
       {| request := http_get "/users" Sample.token [("limit", VNum 200)];
          result := json_result |}))
  = Some (VNum 200).
Proof.
  apply (proj2 (proj1 (limit_parameter
                         (Sample.world (Some "PEM") Sample.ok_app)
                         "list_users" [("limit", VNum 500)] Sample.token
                         {| request :=
                              http_get "/users" Sample.token
                                [("limit", VNum 200)];
                            result := json_result |} eq_refl)
                  500 (or_introl eq_refl) eq_refl)).
  lia.
Defined.

(* ===================================================================== *)
(** ** Claims on the result of a call *)
(* ===================================================================== *)

Ltac plan_inv H :=
  exc_right H;
  repeat lazymatch type of H with
         | (if ?b then _ else _) = inr _ =>
             destruct b; [discriminate H |]; exc_right H
         end.

(** Every case but the deletion returns the response data, serialized with
    two spaces of indentation. *)
Lemma switch_result w tool args token plan :
  switch w tool args token = inr plan ->
  tool <> "delete_customer_review_response" ->
  result plan = json_result.
Proof.
  unfold switch. intros H Hne.
  repeat match type of H with
         | (if (?s =? ?t)%string then _ else _) = _ =>
             destruct (String.eqb_spec s t)
         end; try congruence; try discriminate H.
  - inversion H; reflexivity.
  - inversion H; reflexivity.
  - unfold get_app_info in H. plan_inv H. inversion H; reflexivity.
  - unfold list_users in H. exc_right H. inversion H; reflexivity.
  - unfold list_customer_reviews in H. plan_inv H. inversion H; reflexivity.
  - unfold list_customer_reviews_for_version in H. plan_inv H.
    inversion H; reflexivity.
  - unfold create_customer_review_response in H. plan_inv H.
    inversion H; reflexivity.
  - unfold get_customer_review_response in H. plan_inv H.
    inversion H; reflexivity.
Qed.





(** The body of the sample response is the serialization without
    indentation of the data decoded from it. *)
Example app_body_decodes :
  JSON.stringify Sample.app_data 0 = Some Sample.app_body.
Proof. reflexivity. Qed.

(** C8, as stated, fails: from the body [{"data":{"id":"123"}}] the result
    of [get_app_info] carries the same value printed over five lines. *)
Lemma verbatim_counterexample :
  ~ spec_verbatim Sample.config (Sample.world (Some "PEM") Sample.ok_app)
      {| name := "get_app_info"; arguments := VObj [("appId", VStr "123")] |}.
Proof.
  intros H.
  specialize (H ltac:(discriminate) Sample.token _
                {| status := 200; body := Sample.app_body;
                   rdata := Sample.app_data |} eq_refl eq_refl eq_refl).
  vm_compute in H. discriminate H.
Qed.

(** C8, amended. For every tool but [delete_customer_review_response],
    when the HTTP exchange succeeds the result has one content item of
    type [text], and its text is
    [JSON.stringify(response.data, null, 2)]: the data decoded from the
    upstream body, serialized again with two spaces of indentation. *)
Theorem relays_response_data config w req token plan response :
  name req <> "delete_customer_review_response" ->
  outcome (generateToken config w) = inr token ->
  switch w (name req) (arguments req) token = inr plan ->
  outcome (axios_request w (request plan)) = inr response ->
  outcome (call_tool config w req)
  = inr {| content :=
             [ {| type := "text";
                  text := JSON.stringify (rdata response) 2 |} ] |}.
Proof.
  intros Hne Ht Hs Hax.
  destruct (generateToken config w) as [t r] eqn:Hg. simpl in Ht. subst r.
  rewrite (call_tool_exchange config w req Hg Hs).
  unfold outcome in *. cbn [snd]. rewrite Hax.
  now rewrite (switch_result w _ _ _ plan Hs Hne).
Qed.

Lemma relays_response_data_witness :
  outcome (call_tool Sample.config (Sample.world (Some "PEM") Sample.ok_app)
             {| name := "get_app_info";
                arguments := VObj [("appId", VStr "123")] |})
  = inr {| content :=
             [ {| type := "text";
                  text := Some ("{" ++ JSON.newline
                                ++ "  " ++ JSON.quote "data" ++ ": {"
                                ++ JSON.newline
                                ++ "    " ++ JSON.quote "id" ++ ": "
                                ++ JSON.quote "123" ++ JSON.newline
                                ++ "  }" ++ JSON.newline ++ "}") |} ] |}.
Proof.
  apply (relays_response_data Sample.config
           (Sample.world (Some "PEM") Sample.ok_app)
           {| name := "get_app_info";
              arguments := VObj [("appId", VStr "123")] |}
           Sample.token
           {| request := http_get "/apps/123" Sample.token
                           [("include", VUndefined)];
              result := json_result |}
           {| status := 200; body := Sample.app_body;
              rdata := Sample.app_data |});
    [discriminate | reflexivity | reflexivity | reflexivity].
Defined.

(** C9. A successful [delete_customer_review_response] with the response
    identifier [responseId] returns one content item of type [text] whose
    text is the fixed confirmation with that identifier in it, whatever
    the upstream response holds. *)
Theorem delete_confirmation config w o responseId token response :
  JS.lookup "responseId" o = Some (VStr responseId) ->
  responseId <> "" ->
  outcome (generateToken config w) = inr token ->
  outcome (axios_request w
             {| method := DELETE;
                url := "/customerReviewResponses/" ++ responseId;
                headers := [("Authorization", Bearer token)];
                params := []; data := None |}) = inr response ->
  outcome (call_tool config w
             {| name := "delete_customer_review_response";
                arguments := VObj o |})
  = inr {| content :=
             [ {| type := "text";
                  text := Some ("Customer review response " ++ responseId
                                ++ " deleted successfully.") |} ] |}.
Proof.
  intros Hid Hne Ht Hax.
  destruct (generateToken config w) as [t r] eqn:Hg. simpl in Ht. subst r.
  assert (Hs : switch w "delete_customer_review_response" (VObj o) token
               = inr {| request :=
                          {| method := DELETE;
                             url := "/customerReviewResponses/" ++ responseId;
                             headers := [authorization token];
                             params := []; data := None |};
                        result := fun _ =>
                          text_content
                            (Some ("Customer review response " ++ responseId
                                   ++ " deleted successfully.")) |}).
  { replace (switch w "delete_customer_review_response" (VObj o) token)
      with (delete_customer_review_response (VObj o) token) by reflexivity.
    unfold delete_customer_review_response.
    rewrite destructure_object. cbn [ebind JS.member]. rewrite Hid.
    cbn [JS.truthy JS.to_string].
    apply String.eqb_neq in Hne. rewrite Hne. reflexivity. }
  rewrite (call_tool_exchange config w
             {| name := "delete_customer_review_response";
                arguments := VObj o |} Hg Hs).
  unfold outcome in *. cbn [snd request result] in *.
  unfold authorization. now rewrite Hax.
Qed.

Lemma delete_confirmation_witness :
  outcome (call_tool Sample.config
             (Sample.world (Some "PEM") Sample.no_content)
             {| name := "delete_customer_review_response";
                arguments := VObj [("responseId", VStr "resp-9")] |})
  = inr {| content :=
             [ {| type := "text";
                  text := Some ("Customer review response resp-9 "
                                ++ "deleted successfully.") |} ] |}.
Proof.
  apply (delete_confirmation Sample.config
           (Sample.world (Some "PEM") Sample.no_content)
           [("responseId", VStr "resp-9")] "resp-9" Sample.token
           {| status := 204; body := ""; rdata := VStr "" |});
    [reflexivity | discriminate | reflexivity | reflexivity].
Defined.

(* ===================================================================== *)
(** ** The tool list against the cases of the handler *)
(* ===================================================================== *)

(** C6. The list of tools has eight entries, one for each documented tool
    but [list_beta_groups]: the handler has a case for that name, and the
    list does not name it. *)
Theorem list_beta_groups_not_listed :
  outcome list_tools = inr tools
  /\ map tool_name tools
     = ["list_apps"; "get_app_info"; "list_users"; "list_customer_reviews";
        "list_customer_reviews_for_version";
        "create_customer_review_response";
        "delete_customer_review_response"; "get_customer_review_response"]
  /\ existsb (String.eqb "list_beta_groups") documented_names = true
  /\ existsb (String.eqb "list_beta_groups") handled_names = true
  /\ existsb (String.eqb "list_beta_groups") (map tool_name tools) = false
  /\ filter (fun n => negb (existsb (String.eqb n) (map tool_name tools)))
        documented_names
     = ["list_beta_groups"]
  /\ forall w args token,
       switch w "list_beta_groups" args token
       = list_beta_groups args token.
Proof. repeat split. Qed.

(* ===================================================================== *)
(** ** Further properties: start-up and the issuer *)
(* ===================================================================== *)

(** X1. The configuration check at start-up: the module goes on only when
    the three variables are set to non-empty strings, and the
    configuration then holds exactly those strings; otherwise it throws
    the one start-up message, and some variable is unset or empty. *)
Theorem load_config_checked (env : string -> option string) :
  match load_config env with
  | inr config =>
      env "APP_STORE_CONNECT_KEY_ID" = Some (keyId config)
      /\ env "APP_STORE_CONNECT_ISSUER_ID" = Some (issuerId config)
      /\ env "APP_STORE_CONNECT_P8_PATH" = Some (privateKeyPath config)
      /\ keyId config <> "" /\ issuerId config <> ""
      /\ privateKeyPath config <> ""
  | inl message =>
      message = startup_message
      /\ exists k,
           In k ["APP_STORE_CONNECT_KEY_ID"; "APP_STORE_CONNECT_ISSUER_ID";
                 "APP_STORE_CONNECT_P8_PATH"]
           /\ (env k = None \/ env k = Some "")
  end.
Proof.
  unfold load_config, env_value.
  destruct (env "APP_STORE_CONNECT_KEY_ID") as [[| c1 s1] |] eqn:E1;
    cbn [JS.truthy String.eqb negb orb];
    try (split; [reflexivity |];
         exists "APP_STORE_CONNECT_KEY_ID"; simpl; now auto).
  destruct (env "APP_STORE_CONNECT_ISSUER_ID") as [[| c2 s2] |] eqn:E2;
    cbn [JS.truthy String.eqb negb orb];
    try (split; [reflexivity |];
         exists "APP_STORE_CONNECT_ISSUER_ID"; simpl; now auto).
  destruct (env "APP_STORE_CONNECT_P8_PATH") as [[| c3 s3] |] eqn:E3;
    cbn [JS.truthy String.eqb negb orb];
    try (split; [reflexivity |];
         exists "APP_STORE_CONNECT_P8_PATH"; simpl; now auto 6).
  cbn [keyId issuerId privateKeyPath JS.to_string].
  repeat split; discriminate.
Qed.

(** X2. When the key file cannot be read, every tool call, whatever its
    name and arguments, ends after the read attempt with the error of the
    file read: nothing is signed, nothing is sent, and the [catch] block
    passes the error on as it is. *)
Theorem unreadable_key_ends_call config w req :
  read_file w (privateKeyPath config) = None ->
  call_tool config w req
  = ([ReadFile (privateKeyPath config)],
     inl (FsError (privateKeyPath config))).
Proof.
  intros Hread. apply call_tool_issuer_fails.
  unfold generateToken, readFile. simpl. now rewrite Hread.
Qed.

Lemma unreadable_key_ends_call_witness :
  call_tool Sample.config (Sample.world None Sample.ok_app)
    {| name := "list_apps"; arguments := VUndefined |}
  = ([ReadFile "/keys/AuthKey.p8"], inl (FsError "/keys/AuthKey.p8")).
Proof.
  apply (unreadable_key_ends_call Sample.config
           (Sample.world None Sample.ok_app)
           {| name := "list_apps"; arguments := VUndefined |}).
  reflexivity.
Defined.

(* ===================================================================== *)
(** ** Further properties: the errors of a call *)
(* ===================================================================== *)

Create HintDb case_errors.

Lemma destructure_kind args k e :
  destructure args k = inl e -> thrown_by_check e.
Proof.
  unfold destructure. destruct (JS.nullish args); intros H;
    inversion H; exact I.
Qed.

Lemma call_join_error expr x sep e :
  call_join expr x sep = inl e ->
  e = TypeError (expr ++ ".join is not a function").
Proof. destruct x; simpl; intros H; inversion H; reflexivity. Qed.

Lemma opt_call_join_error expr x sep e :
  opt_call_join expr x sep = inl e ->
  e = TypeError (expr ++ "?.join is not a function").
Proof.
  unfold opt_call_join. destruct (JS.nullish x); [discriminate |].
  destruct x; intros H; inversion H; reflexivity.
Qed.

Lemma opt_call_join_kind expr x sep e :
  opt_call_join expr x sep = inl e -> thrown_by_check e.
Proof. intros H. apply opt_call_join_error in H. now subst e. Qed.

Lemma assign_joined_error expr k x params e :
  assign_joined expr k x params = inl e ->
  e = TypeError (expr ++ ".join is not a function").
Proof.
  unfold assign_joined. destruct (JS.truthy _); [| discriminate].
  intros H. apply ebind_inl in H. destruct H as [H | (? & _ & H)];
    [eapply call_join_error; eauto | discriminate].
Qed.

Lemma assign_joined_kind expr k x params e :
  assign_joined expr k x params = inl e -> thrown_by_check e.
Proof. intros H. apply assign_joined_error in H. now subst e. Qed.

Lemma destructure_default_kind args k d e :
  destructure_default args k d = inl e -> thrown_by_check e.
Proof.
  unfold destructure_default. intros H.
  apply ebind_inl in H. destruct H as [H | (? & _ & H)];
    [eapply destructure_kind; eauto | discriminate].
Qed.

#[local] Hint Resolve destructure_kind destructure_default_kind
  opt_call_join_kind assign_joined_kind : case_errors.

Ltac kinds H :=
  cbv beta zeta in H;
  lazymatch type of H with
  | ebind _ _ = inl _ =>
      apply ebind_inl in H; destruct H as [H | (? & _ & H)];
      [kinds H | kinds H]
  | (if ?b then _ else _) = inl _ => destruct b; kinds H
  | _ => solve [eauto with case_errors | discriminate H
               | inversion H; exact I]
  end.

Lemma review_params_kind w args e :
  review_params w args = inl e -> thrown_by_check e.
Proof. unfold review_params. intros H. kinds H. Qed.

#[local] Hint Resolve review_params_kind : case_errors.

(** The statements of a case with a name throw [InvalidParams] or a
    [TypeError]; [MethodNotFound] comes from the [default] alone. *)
Lemma switch_kinds w tool args token e :
  switch w tool args token = inl e ->
  (existsb (String.eqb tool) handled_names = true /\ thrown_by_check e)
  \/ (existsb (String.eqb tool) handled_names = false
      /\ e = McpError MethodNotFound ("Unknown tool: " ++ tool)).
Proof.
  unfold switch, handled_names. cbn [existsb]. intros H.
  repeat match type of H with
         | (if (tool =? ?s)%string then _ else _) = _ =>
             destruct (tool =? s)%string;
             [ left; split; [now rewrite ?orb_true_r |];
               unfold list_apps, list_beta_groups, get_app_info, list_users,
                 list_customer_reviews, list_customer_reviews_for_version,
                 create_customer_review_response,
                 delete_customer_review_response,
                 get_customer_review_response in H;
               kinds H
             | cbn [orb] ]
         end.
  right. split; [reflexivity | now inversion H].
Qed.


Lemma generateToken_kind config w e :
  outcome (generateToken config w) = inl e -> thrown_by_issuer e.
Proof.
  destruct (generateToken_issuance config w); simpl; intros Hout;
    inversion Hout; exact I.
Qed.



(* ===================================================================== *)
(** ** Further properties: what a call does, in order *)
(* ===================================================================== *)

(** X4. The effects of one call.  Every call reads exactly one file, the
    configured key file, and sends at most one request.  When it sends
    none, it has done what the issuer does and nothing more; when it sends
    one, the key was read and the token signed before, and the request is
    the last thing it does. *)
Theorem call_trace_shape config w req :
  files_read (trace (call_tool config w req)) = [privateKeyPath config]
  /\ match http_requests (trace (call_tool config w req)) with
     | [] => trace (call_tool config w req) = trace (generateToken config w)
     | [r] =>
         exists key,
           read_file w (privateKeyPath config) = Some key
           /\ trace (call_tool config w req)
              = [ReadFile (privateKeyPath config); Sign key; Http r]
     | _ => False
     end.
Proof.
  destruct (call_tool_trace config w req)
    as [Htr | (token & plan & Ht & Hs & Htr)]; rewrite Htr.
  - destruct (generateToken_issuance config w); simpl; auto.
  - destruct (generateToken_issuance config w) as [| | key sig Hr Hsig];
      try discriminate Ht.
    simpl. split; [reflexivity | eauto].
Qed.

Lemma switch_headers w tool args token plan :
  switch w tool args token = inr plan ->
  headers (request plan)
  = match method (request plan) with
    | POST => [("Authorization", Bearer token);
               ("Content-Type", Literal "application/json")]
    | _ => [("Authorization", Bearer token)]
    end.
Proof.
  unfold switch. intros H.
  repeat match type of H with
         | (if ?b then _ else _) = _ => destruct b
         end; try discriminate H.
  - inversion H; reflexivity.
  - inversion H; reflexivity.
  - unfold get_app_info in H. plan_inv H. inversion H; reflexivity.
  - unfold list_users in H. exc_right H. inversion H; reflexivity.
  - unfold list_customer_reviews in H. plan_inv H. inversion H; reflexivity.
  - unfold list_customer_reviews_for_version in H. plan_inv H.
    inversion H; reflexivity.
  - unfold create_customer_review_response in H. plan_inv H.
    inversion H; reflexivity.
  - unfold delete_customer_review_response in H. plan_inv H.
    inversion H; reflexivity.
  - unfold get_customer_review_response in H. plan_inv H.
    inversion H; reflexivity.
Qed.

(** X5. The headers of every request that a call sends: a GET or a DELETE
    carries the [Authorization] header alone, a POST carries it followed
    by the JSON content type; and the header is [Bearer] with the token
    that the issuer produced in that same call. *)
Theorem request_is_authorized config w req :
  Forall (fun r =>
            exists token,
              outcome (generateToken config w) = inr token
              /\ headers r
                 = match method r with
                   | POST => [("Authorization", Bearer token);
                              ("Content-Type", Literal "application/json")]
                   | _ => [("Authorization", Bearer token)]
                   end)
         (http_requests (trace (call_tool config w req))).
Proof.
  pose proof (issuer_sends_nothing config w) as Hnone.
  destruct (call_tool_trace config w req)
    as [Htr | (token & plan & Ht & Hs & Htr)]; rewrite Htr.
  - rewrite Hnone. constructor.
  - unfold http_requests in *. rewrite flat_map_app, Hnone. simpl.
    constructor; [| constructor].
    exists token. split; [exact Ht |].
    exact (switch_headers w _ _ token plan Hs).
Qed.

(** The [default] of the switch. *)
Lemma switch_default w tool args token :
  existsb (String.eqb tool) handled_names = false ->
  switch w tool args token
  = inl (McpError MethodNotFound ("Unknown tool: " ++ tool)).
Proof.
  intros E. unfold handled_names in E. cbn [existsb] in E.
  repeat (apply orb_false_elim in E; destruct E as [? E]).
  unfold switch.
  repeat match goal with
         | Hn : (tool =? ?s)%string = false |- _ => rewrite Hn; clear Hn
         end.
  reflexivity.
Qed.

(** X6. Unknown names.  A call whose name has no [case] sends nothing; once
    the token is issued it fails with [MethodNotFound] and the message
    naming the tool, whatever the arguments (when the issuer fails, with
    the issuer's error).  A call whose name has a [case] never fails with
    [MethodNotFound]. *)
Theorem unknown_tool config w req :
  if existsb (String.eqb (name req)) handled_names
  then forall message,
         outcome (call_tool config w req)
         <> inl (McpError MethodNotFound message)
  else http_requests (trace (call_tool config w req)) = []
       /\ match outcome (generateToken config w) with
          | inr _ =>
              outcome (call_tool config w req)
              = inl (McpError MethodNotFound
                       ("Unknown tool: " ++ name req))
          | inl e => outcome (call_tool config w req) = inl e
          end.
Proof.
  pose proof (issuer_sends_nothing config w) as Hnone.
  destruct (existsb (String.eqb (name req)) handled_names) eqn:E.
  - intros message H.
    destruct (generateToken config w) as [t [e0 | token]] eqn:Hg.
    + rewrite (call_tool_issuer_fails config w req Hg) in H.
      simpl in H. inversion H; subst e0.
      pose proof (generateToken_kind config w
                    (McpError MethodNotFound message)) as Hk.
      rewrite Hg in Hk. exact (Hk eq_refl).
    + destruct (switch w (name req) (arguments req) token)
        as [e0 | plan] eqn:Hs.
      * rewrite (call_tool_case_throws config w req Hg Hs) in H.
        simpl in H. inversion H; subst e0.
        destruct (switch_kinds w _ _ token _ Hs) as [[_ Hk] | [Hf _]];
          [exact Hk | congruence].
      * rewrite (call_tool_exchange config w req Hg Hs) in H.
        unfold outcome in H. cbn [snd] in H.
        destruct (snd (axios_request w (request plan))) as [e1 | r] eqn:Hax;
          [| discriminate H].
        pose proof (axios_request_throws w (request plan) e1 Hax) as Hiax.
        destruct e1; try discriminate Hiax. simpl in H. discriminate H.
  - destruct (generateToken config w) as [t [e0 | token]] eqn:Hg.
    + rewrite (call_tool_issuer_fails config w req Hg). simpl. auto.
    + rewrite (call_tool_case_throws config w req Hg
                 (switch_default w (name req) (arguments req) token E)).
      simpl. auto.
Qed.

(** X7. Every tool of the list has a [case]: calling a listed tool is
    never answered with [MethodNotFound]; and no name is listed twice. *)
Theorem listed_tools_are_handled t :
  In t tools ->
  NoDup (map tool_name tools)
  /\ forall w args token message,
       switch w (tool_name t) args token
       <> inl (McpError MethodNotFound message).
Proof.
  intros Hin. split.
  - repeat constructor; simpl; intuition discriminate.
  - intros w args token message H.
    assert (Hh : existsb (String.eqb (tool_name t)) handled_names = true).
    { simpl in Hin.
      repeat (destruct Hin as [<- | Hin]; [reflexivity |]). destruct Hin. }
    destruct (switch_kinds w _ args token _ H) as [[_ Hk] | [Hf _]];
      [exact Hk | congruence].
Qed.

Lemma listed_tools_are_handled_witness :
  NoDup (map tool_name tools)
  /\ forall w args token message,
       switch w "list_users" args token
       <> inl (McpError MethodNotFound message).
Proof.
  apply (listed_tools_are_handled
           (nth 2 tools
              {| tool_name := ""; description := ""; inputSchema := VNull |})).
  simpl. auto.
Defined.

(* ===================================================================== *)
(** ** Further properties: the arguments object *)
(* ===================================================================== *)

(** X8. A call without an arguments object ([undefined] or [null]).  The
    six cases that destructure the arguments throw a [TypeError], not
    [InvalidParams]; [list_apps], [list_beta_groups] and [list_users] go
    on and ask for the default limit of 100. *)
Theorem absent_arguments w tool args token :
  JS.nullish args = true ->
  (In tool destructuring_tools ->
   exists message, switch w tool args token = inl (TypeError message))
  /\ (In tool lenient_tools ->
      exists plan,
        switch w tool args token = inr plan
        /\ JS.lookup "limit" (params (request plan)) = Some (VNum 100)).
Proof.
  intros Hnull.
  assert (Hargs : args = VUndefined \/ args = VNull)
    by (destruct args; try discriminate Hnull; auto).
  split; intros Hin; simpl in Hin;
    repeat (destruct Hin as [<- | Hin];
            [destruct Hargs as [-> | ->]; eexists; try split; reflexivity |]);
    destruct Hin.
Qed.

Lemma absent_arguments_witness :
  exists message,
    switch (Sample.world (Some "PEM") Sample.ok_app)
      "delete_customer_review_response" VUndefined Sample.token
    = inl (TypeError message).
Proof.
  apply (proj1 (absent_arguments (Sample.world (Some "PEM") Sample.ok_app)
                  "delete_customer_review_response" VUndefined Sample.token
                  eq_refl)).
  simpl. auto 10.
Defined.

Ltac read_same H o1 :=
  unfold destructure_default, destructure, JS.opt_member, JS.or_else;
  cbn [JS.nullish JS.truthy JS.member];
  repeat match goal with
         | |- context [JS.lookup ?k o1] =>
             rewrite (H k) by (simpl; tauto)
         end;
  reflexivity.

(** Two arguments objects that agree on what a case reads leave the same
    plan, or the same exception. *)
Lemma switch_reads_only w tool o1 o2 token :
  (forall k, In k (read_keys tool) -> JS.lookup k o1 = JS.lookup k o2) ->
  switch w tool (VObj o1) token = switch w tool (VObj o2) token.
Proof.
  unfold switch, read_keys. intros H.
  repeat match goal with
         | |- context [(tool =? ?s)%string] =>
             destruct (tool =? s)%string;
             [ unfold list_apps, list_beta_groups, get_app_info, list_users,
                 list_customer_reviews, list_customer_reviews_for_version,
                 create_customer_review_response,
                 delete_customer_review_response,
                 get_customer_review_response, review_params,
                 review_arguments in *;
               read_same H o1 |]
         end.
  reflexivity.
Qed.

(** X9. Arguments that a tool does not read are ignored: two calls of a
    tool whose arguments agree on the properties its case reads have the
    same effects and the same outcome; nothing else of the arguments
    object reaches the request. *)
Theorem unread_arguments_ignored config w tool o1 o2 :
  (forall k, In k (read_keys tool) -> JS.lookup k o1 = JS.lookup k o2) ->
  call_tool config w {| name := tool; arguments := VObj o1 |}
  = call_tool config w {| name := tool; arguments := VObj o2 |}.
Proof.
  intros H. unfold call_tool. cbn [name arguments].
  destruct (generateToken config w) as [t [e | token]]; [reflexivity |].
  cbn [bind]. now rewrite (switch_reads_only w tool o1 o2 token H).
Qed.

Lemma unread_arguments_ignored_witness :
  call_tool Sample.config (Sample.world (Some "PEM") Sample.ok_app)
    {| name := "get_app_info";
       arguments := VObj [("appId", VStr "123"); ("limit", VNum 5);
                          ("fields", VArr [VStr "name"])] |}
  = call_tool Sample.config (Sample.world (Some "PEM") Sample.ok_app)
      {| name := "get_app_info";
         arguments := VObj [("appId", VStr "123")] |}.
Proof.
  apply (unread_arguments_ignored Sample.config
           (Sample.world (Some "PEM") Sample.ok_app) "get_app_info"
           [("appId", VStr "123"); ("limit", VNum 5);
            ("fields", VArr [VStr "name"])]
           [("appId", VStr "123")]).
  intros k [<- | [<- | []]]; reflexivity.
Defined.

(* ===================================================================== *)
(** ** Further properties: the query parameters *)
(* ===================================================================== *)

Lemma set_keys_Forall (P : string -> Prop) k v o :
  P k -> Forall P (keys o) -> Forall P (keys (JS.set k v o)).
Proof.
  intros Hk Ho. destruct (keys_set k v o) as [[_ ->] | [_ ->]];
    [assumption |].
  apply Forall_app. split; [assumption | repeat constructor; assumption].
Qed.

Lemma assign_if_keys_Forall (P : string -> Prop) c k v o :
  P k -> Forall P (keys o) -> Forall P (keys (assign_if c k v o)).
Proof.
  unfold assign_if. destruct c; [apply set_keys_Forall | auto].
Qed.

Lemma assign_array_joined_keys_Forall (P : string -> Prop) k x o :
  P k -> Forall P (keys o) -> Forall P (keys (assign_array_joined k x o)).
Proof.
  unfold assign_array_joined. destruct x; auto.
  apply assign_if_keys_Forall.
Qed.

Lemma assign_joined_keys_Forall (P : string -> Prop) [expr k x o o'] :
  assign_joined expr k x o = inr o' ->
  P k -> Forall P (keys o) -> Forall P (keys o').
Proof.
  intros H Hk Ho.
  destruct (assign_joined_inr H) as [[_ ->] | (l & _ & _ & ->)];
    [assumption | now apply set_keys_Forall].
Qed.

Ltac keys_allowed :=
  repeat first
    [ apply assign_if_keys_Forall; [simpl; tauto |]
    | apply assign_array_joined_keys_Forall; [simpl; tauto |]
    | match goal with
      | H : assign_joined _ _ _ _ = inr ?p |- Forall _ (keys ?p) =>
          apply (assign_joined_keys_Forall _ H); [simpl; tauto |]
      end
    | solve [repeat constructor; simpl; tauto] ].

Lemma review_params_keys w args [params] :
  review_params w args = inr params ->
  Forall (fun k => In k review_query) (keys params).
Proof.
  unfold review_params. intros H. exc_right H. keys_allowed.
Qed.

Lemma list_users_keys w args token [plan] :
  list_users w args token = inr plan ->
  Forall (fun k => In k (allowed_query "list_users"))
         (keys (params (request plan))).
Proof.
  unfold list_users. intros H. exc_right H.
  inversion H; subst plan; clear H. cbn [request params http_get].
  destruct (JS.truthy _) in Hp0.
  - exc_right Hp0. keys_allowed.
  - inversion Hp0; subst. keys_allowed.
Qed.

(** X10. The query of a request holds no key twice, and only keys from the
    fixed list of its tool: nothing else can be made a query parameter
    through the arguments. *)
Theorem query_keys_allowed w tool args token plan :
  switch w tool args token = inr plan ->
  NoDup (keys (params (request plan)))
  /\ incl (keys (params (request plan))) (allowed_query tool).
Proof.
  intros H.
  assert (Hok : NoDup (keys (params (request plan)))
                /\ Forall (fun k => In k (allowed_query tool))
                     (keys (params (request plan))));
    [| destruct Hok as [Hnd Hall]; split;
       [exact Hnd | intros k Hk; exact (proj1 (Forall_forall _ _) Hall k Hk)]].
  unfold switch in H.
  repeat match type of H with
         | (if (?s =? ?t)%string then _ else _) = _ =>
             destruct (String.eqb_spec s t); [subst tool |]
         end; try discriminate H.
  - inversion H. simpl. repeat constructor; simpl; tauto.
  - inversion H. simpl. repeat constructor; simpl; intuition discriminate.
  - unfold get_app_info in H. plan_inv H. inversion H.
    simpl. repeat constructor; simpl; tauto.
  - split; [| exact (list_users_keys w args token H)].
    exact (proj1 (list_users_spec w args token H)).
  - apply list_customer_reviews_params in H. split.
    + exact (proj1 (review_params_spec w args H)).
    + exact (review_params_keys w args H).
  - apply list_customer_reviews_for_version_params in H. split.
    + exact (proj1 (review_params_spec w args H)).
    + exact (review_params_keys w args H).
  - unfold create_customer_review_response in H. plan_inv H. inversion H.
    simpl. repeat constructor.
  - unfold delete_customer_review_response in H. plan_inv H. inversion H.
    simpl. repeat constructor.
  - unfold get_customer_review_response in H. plan_inv H. inversion H.
    simpl. repeat constructor.
Qed.

Lemma query_keys_allowed_witness :
  NoDup ["limit"; "sort"; "filter[roles]"]
  /\ incl ["limit"; "sort"; "filter[roles]"] (allowed_query "list_users").
Proof.
  apply (query_keys_allowed (Sample.world (Some "PEM") Sample.ok_app)
           "list_users"
           (VObj [("sort", VStr "-username");
                  ("filter", VObj [("roles", VArr [VStr "ADMIN"])]);
                  ("page", VNum 3)])
           Sample.token
           {| request :=
                http_get "/users" Sample.token
                  [("limit", VNum 100); ("sort", VStr "-username");
                   ("filter[roles]", VStr "ADMIN")];
              result := json_result |}).
  reflexivity.
Defined.

Lemma Math_min_capped x :
  Math_min x (VNum 200) = VNaN
  \/ exists n, Math_min x (VNum 200) = VNum n /\ n <= 200.
Proof.
  destruct x; simpl; auto. right. eexists. split; [reflexivity | lia].
Qed.

(** X11. [list_users] and the two customer-review listings never ask for
    more than 200: whatever the arguments, a limit on the request is a
    number no greater than 200, or [NaN] when the argument is no number. *)
Theorem limit_never_above_cap w tool args token plan v :
  In tool ["list_users"; "list_customer_reviews";
           "list_customer_reviews_for_version"] ->
  switch w tool args token = inr plan ->
  JS.lookup "limit" (params (request plan)) = Some v ->
  v = VNaN \/ exists n, v = VNum n /\ n <= 200.
Proof.
  intros Hin Hs Hv.
  assert (Hcap : exists x, v = Math_min x (VNum 200)).
  { destruct Hin as [<- | [<- | [<- | []]]].
    - change (list_users w args token = inr plan) in Hs.
      destruct (list_users_spec w args token Hs) as (_ & Hl & _).
      rewrite Hl in Hv. inversion Hv. unfold users_limit. eauto.
    - change (list_customer_reviews w args token = inr plan) in Hs.
      apply list_customer_reviews_params in Hs.
      destruct (review_params_spec w args Hs) as (_ & _ & Hl).
      rewrite Hl in Hv. unfold review_limit in Hv.
      destruct (typeof _ =? _)%string; inversion Hv. eauto.
    - change (list_customer_reviews_for_version w args token = inr plan)
        in Hs.
      apply list_customer_reviews_for_version_params in Hs.
      destruct (review_params_spec w args Hs) as (_ & _ & Hl).
      rewrite Hl in Hv. unfold review_limit in Hv.
      destruct (typeof _ =? _)%string; inversion Hv. eauto. }
  destruct Hcap as [x ->]. apply Math_min_capped.
Qed.

Lemma limit_never_above_cap_witness :
  VNum 200 = VNaN \/ exists n, VNum 200 = VNum n /\ n <= 200.
Proof.
  apply (limit_never_above_cap (Sample.world (Some "PEM") Sample.ok_app)
           "list_customer_reviews"
           (VObj [("appId", VStr "123"); ("limit", VNum 100000)])
           Sample.token
           {| request :=
                http_get "/apps/123/customerReviews" Sample.token
                  [("limit", VNum 200)];
              result := json_result |}
           (VNum 200));
    [simpl; auto | reflexivity | reflexivity].
Defined.








Lemma review_params_exists w args [params] :
  review_params w args = inr params ->
  JS.lookup "exists[publishedResponse]" params
  = match JS.member args "existsPublishedResponse" with
    | VBool b => Some (VBool b)
    | _ => None
    end.
Proof.
  unfold review_params. intros H. exc_right H. lookup_back.
  unfold assign_if.
  destruct (JS.member args "existsPublishedResponse");
    cbn [typeof String.eqb Ascii.eqb Bool.eqb]; cbv beta iota;
    try (lookup_back; reflexivity).
  apply lookup_set_same.
Qed.

(** X14. [existsPublishedResponse] goes through as a boolean or not at
    all: the customer-review listings send [exists[publishedResponse]]
    with the very boolean given, and leave it out for any other value
    (the strings "true" and "false" included). *)
Theorem exists_published_response w tool args token plan :
  In tool ["list_customer_reviews"; "list_customer_reviews_for_version"] ->
  switch w tool args token = inr plan ->
  JS.lookup "exists[publishedResponse]" (params (request plan))
  = match JS.member args "existsPublishedResponse" with
    | VBool b => Some (VBool b)
    | _ => None
    end.
Proof.
  intros [<- | [<- | []]] Hs.
  - change (list_customer_reviews w args token = inr plan) in Hs.
    apply list_customer_reviews_params in Hs.
    exact (review_params_exists w args Hs).
  - change (list_customer_reviews_for_version w args token = inr plan) in Hs.
    apply list_customer_reviews_for_version_params in Hs.
    exact (review_params_exists w args Hs).
Qed.

Lemma exists_published_response_witness :
  JS.lookup "exists[publishedResponse]"
    [("exists[publishedResponse]", VBool false)]
  = Some (VBool false).
Proof.
  apply (exists_published_response
           (Sample.world (Some "PEM") Sample.ok_app)
           "list_customer_reviews_for_version"
           (VObj [("versionId", VStr "v7");
                  ("existsPublishedResponse", VBool false)])
           Sample.token
           {| request :=
                http_get "/appStoreVersions/v7/customerReviews" Sample.token
                  [("exists[publishedResponse]", VBool false)];
              result := json_result |});
    [simpl; auto | reflexivity].
Defined.

Lemma list_users_forwards w args token [plan] :
  list_users w args token = inr plan ->
  let a := JS.or_else args (VObj []) in
  let filter := JS.member a "filter" in
  JS.lookup "sort" (params (request plan))
  = (if JS.truthy (JS.member a "sort")
     then Some (JS.member a "sort") else None)
  /\ JS.lookup "filter[username]" (params (request plan))
     = (if JS.truthy filter && JS.truthy (JS.member filter "username")
        then Some (JS.member filter "username") else None).
Proof.
  intros H a filter. unfold list_users in H. fold a in H. exc_right H.
  inversion H; subst plan; clear H. cbn [request params http_get].
  fold filter in Hp0.
  destruct (JS.truthy filter) eqn:Hf.
  - exc_right Hp0. split; lookup_back; unfold assign_if.
    + destruct (JS.truthy (JS.member a "sort"));
        [apply lookup_set_same | reflexivity].
    + cbn [andb]. destruct (JS.truthy (JS.member filter "username")).
      * apply lookup_set_same.
      * destruct (JS.truthy (JS.member a "sort")); reflexivity.
  - inversion Hp0; subst. split; lookup_back; unfold assign_if.
    + destruct (JS.truthy (JS.member a "sort"));
        [apply lookup_set_same | reflexivity].
    + cbn [andb]. destruct (JS.truthy (JS.member a "sort")); reflexivity.
Qed.

(** X15. [list_users] forwards [sort] and [filter.username] untouched:
    each is sent as given when it is truthy and left out otherwise, so a
    [sort] given as an array goes on the request as an array, not as a
    comma-separated string. *)
Theorem list_users_passthrough w o token plan :
  switch w "list_users" (VObj o) token = inr plan ->
  let filter := JS.member (VObj o) "filter" in
  JS.lookup "sort" (params (request plan))
  = (if JS.truthy (JS.member (VObj o) "sort")
     then Some (JS.member (VObj o) "sort") else None)
  /\ JS.lookup "filter[username]" (params (request plan))
     = (if JS.truthy filter && JS.truthy (JS.member filter "username")
        then Some (JS.member filter "username") else None).
Proof.
  intros Hs. change (list_users w (VObj o) token = inr plan) in Hs.
  exact (list_users_forwards w (VObj o) token Hs).
Qed.

Lemma list_users_passthrough_witness :
  JS.lookup "sort"
    [("limit", VNum 100); ("sort", VArr [VStr "lastName"; VStr "-roles"])]
  = Some (VArr [VStr "lastName"; VStr "-roles"])
  /\ JS.lookup "filter[username]"
       [("limit", VNum 100); ("sort", VArr [VStr "lastName"; VStr "-roles"])]
     = None.
Proof.
  apply (list_users_passthrough (Sample.world (Some "PEM") Sample.ok_app)
           [("sort", VArr [VStr "lastName"; VStr "-roles"]);
            ("filter", VObj [("username", VStr "")])]
           Sample.token
           {| request :=
                http_get "/users" Sample.token
                  [("limit", VNum 100);
                   ("sort", VArr [VStr "lastName"; VStr "-roles"])];
              result := json_result |}).
  reflexivity.
Defined.

(* ===================================================================== *)
(** ** Further properties: routes, checks and results *)
(* ===================================================================== *)

Lemma append_empty (s : string) : (s ++ "")%string = s.
Proof. induction s as [| c s IH]; simpl; [reflexivity | now rewrite IH]. Qed.

(** X16. The route of each tool.  The method and the path of a request are
    fixed by the tool name; where the path has an identifier, a string
    given for it is put between the fixed parts as it is, without any
    escaping; only [create_customer_review_response] posts a body, the
    envelope built from [reviewId] and [responseBody] as given. *)
Theorem route_of_tool w tool args token plan :
  switch w tool args token = inr plan ->
  exists m prefix id suffix,
    In (tool, m, prefix, id, suffix) routes
    /\ method (request plan) = m
    /\ match id with
       | Some k =>
           forall s, JS.member args k = VStr s ->
                     url (request plan) = prefix ++ s ++ suffix
       | None => url (request plan) = prefix ++ suffix
       end
    /\ data (request plan)
       = if (tool =? "create_customer_review_response")%string
         then Some (response_envelope (JS.member args "reviewId")
                      (JS.member args "responseBody"))
         else None.
Proof.
  unfold switch. intros H.
  repeat match type of H with
         | (if (?s =? ?t)%string then _ else _) = _ =>
             destruct (String.eqb_spec s t); [subst tool |]
         end; try discriminate H.
  - inversion H. do 4 eexists. split; [simpl; eauto 12 |]. repeat split.
  - inversion H. do 4 eexists. split; [simpl; eauto 12 |]. repeat split.
  - unfold get_app_info in H. plan_inv H. inversion H.
    do 4 eexists. split; [simpl; eauto 12 |].
    cbn [request method url data http_get]. repeat split.
    intros s ->. cbn [JS.to_string]. now rewrite append_empty.
  - unfold list_users in H. exc_right H. inversion H.
    do 4 eexists. split; [simpl; eauto 12 |]. repeat split.
  - unfold list_customer_reviews in H. plan_inv H. inversion H.
    do 4 eexists. split; [simpl; eauto 12 |].
    cbn [request method url data http_get]. repeat split.
    intros s ->. reflexivity.
  - unfold list_customer_reviews_for_version in H. plan_inv H. inversion H.
    do 4 eexists. split; [simpl; eauto 12 |].
    cbn [request method url data http_get]. repeat split.
    intros s ->. reflexivity.
  - unfold create_customer_review_response in H. plan_inv H. inversion H.
    do 4 eexists. split; [simpl; eauto 12 |]. repeat split.
  - unfold delete_customer_review_response in H. plan_inv H. inversion H.
    do 4 eexists. split; [simpl; eauto 12 |].
    cbn [request method url data http_get]. repeat split.
    intros s ->. cbn [JS.to_string]. now rewrite append_empty.
  - unfold get_customer_review_response in H. plan_inv H. inversion H.
    do 4 eexists. split; [simpl; eauto 12 |].
    cbn [request method url data http_get]. repeat split.
    intros s ->. reflexivity.
Qed.

Lemma route_of_tool_witness :
  exists m prefix id suffix,
    In ("get_customer_review_response", m, prefix, id, suffix) routes
    /\ GET = m
    /\ match id with
       | Some k =>
           forall s,
             JS.member (VObj [("reviewId", VStr "r1/../x")]) k = VStr s ->
             "/customerReviews/r1/../x/response" = prefix ++ s ++ suffix
       | None => "/customerReviews/r1/../x/response" = prefix ++ suffix
       end
    /\ @None Value = None.
Proof.
  apply (route_of_tool (Sample.world (Some "PEM") Sample.ok_app)
           "get_customer_review_response"
           (VObj [("reviewId", VStr "r1/../x")]) Sample.token
           {| request :=
                http_get "/customerReviews/r1/../x/response" Sample.token [];
              result := json_result |}).
  reflexivity.
Defined.

Lemma destructure_type_error args k e :
  destructure args k = inl e -> exists m, e = TypeError m.
Proof.
  unfold destructure. destruct (JS.nullish args); intros H;
    inversion H; eauto.
Qed.

Lemma assign_joined_type_error expr k x params e :
  assign_joined expr k x params = inl e -> exists m, e = TypeError m.
Proof. intros H. apply assign_joined_error in H. eauto. Qed.

Lemma opt_call_join_type_error expr x sep e :
  opt_call_join expr x sep = inl e -> exists m, e = TypeError m.
Proof. intros H. apply opt_call_join_error in H. eauto. Qed.

Lemma destructure_default_type_error args k d e :
  destructure_default args k d = inl e -> exists m, e = TypeError m.
Proof.
  unfold destructure_default. intros H.
  apply ebind_inl in H. destruct H as [H | (? & _ & H)];
    [eapply destructure_type_error; eauto | discriminate].
Qed.

Create HintDb type_errors.

#[local] Hint Resolve destructure_type_error destructure_default_type_error
  opt_call_join_type_error assign_joined_type_error : type_errors.

Ltac type_errors H :=
  cbv beta zeta in H;
  lazymatch type of H with
  | ebind _ _ = inl _ =>
      apply ebind_inl in H; destruct H as [H | (? & _ & H)];
      [type_errors H | type_errors H]
  | (if ?b then _ else _) = inl _ => destruct b; type_errors H
  | _ => solve [eauto with type_errors | discriminate H]
  end.

Lemma review_params_type_error w args e :
  review_params w args = inl e -> exists m, e = TypeError m.
Proof. unfold review_params. intros H. type_errors H. Qed.

Lemma list_users_type_error w args token e :
  list_users w args token = inl e -> exists m, e = TypeError m.
Proof. unfold list_users. intros H. type_errors H. Qed.

(** Walks a case that ended with [InvalidParams] down to its check. *)
Ltac to_check H :=
  cbv beta zeta in H;
  lazymatch type of H with
  | ebind (destructure _ _) _ = inl _ =>
      let v := fresh "v" in
      let Hd := fresh "Hd" in
      apply ebind_inl in H; destruct H as [H | (v & Hd & H)];
      [ apply destructure_type_error in H; destruct H; discriminate
      | apply destructure_inr in Hd; destruct Hd as [_ ->]; to_check H ]
  | ebind (review_params _ _) _ = inl _ =>
      apply ebind_inl in H; destruct H as [H | (? & _ & H)];
      [ apply review_params_type_error in H; destruct H; discriminate
      | discriminate H ]
  | ebind (opt_call_join _ _ _) _ = inl _ =>
      apply ebind_inl in H; destruct H as [H | (? & _ & H)];
      [ apply opt_call_join_type_error in H; destruct H; discriminate
      | discriminate H ]
  | inr _ = inl _ => discriminate H
  | _ => idtac
  end.

(** X17. [InvalidParams] means a required argument: a case ends with
    [InvalidParams] only when an argument that the input schema of the tool
    declares as required is falsy (absent, [null], empty, zero or
    [false]); no other argument, however malformed, is answered so. *)
Theorem invalid_params_only_for_required w tool args token message :
  switch w tool args token = inl (McpError InvalidParams message) ->
  exists r,
    In r (declared_required tool)
    /\ JS.truthy (JS.member args r) = false.
Proof.
  unfold switch. intros H.
  repeat match type of H with
         | (if (?s =? ?t)%string then _ else _) = _ =>
             destruct (String.eqb_spec s t); [subst tool |]
         end; try discriminate H.
  - unfold get_app_info in H. to_check H.
    destruct (JS.truthy (JS.member args "appId")) eqn:Hid; cbn [negb] in H;
      [to_check H | exists "appId"; split; [vm_compute; auto | exact Hid]].
  - apply list_users_type_error in H. destruct H. discriminate.
  - unfold list_customer_reviews in H. to_check H.
    destruct (JS.truthy (JS.member args "appId")) eqn:Hid; cbn [negb] in H;
      [to_check H | exists "appId"; split; [vm_compute; auto | exact Hid]].
  - unfold list_customer_reviews_for_version in H. to_check H.
    destruct (JS.truthy (JS.member args "versionId")) eqn:Hid;
      cbn [negb] in H;
      [to_check H | exists "versionId"; split; [vm_compute; auto | exact Hid]].
  - unfold create_customer_review_response in H. to_check H.
    destruct (JS.truthy (JS.member args "reviewId")) eqn:Hid;
      [| exists "reviewId"; split; [vm_compute; auto | exact Hid]].
    destruct (JS.truthy (JS.member args "responseBody")) eqn:Hbody;
      [discriminate H
      | exists "responseBody"; split; [vm_compute; auto | exact Hbody]].
  - unfold delete_customer_review_response in H. to_check H.
    destruct (JS.truthy (JS.member args "responseId")) eqn:Hid;
      cbn [negb] in H;
      [discriminate H
      | exists "responseId"; split; [vm_compute; auto | exact Hid]].
  - unfold get_customer_review_response in H. to_check H.
    destruct (JS.truthy (JS.member args "reviewId")) eqn:Hid;
      cbn [negb] in H;
      [discriminate H
      | exists "reviewId"; split; [vm_compute; auto | exact Hid]].
Qed.

Lemma invalid_params_only_for_required_witness :
  exists r,
    In r (declared_required "create_customer_review_response")
    /\ JS.truthy
         (JS.member (VObj [("reviewId", VStr "r1");
                           ("responseBody", VNum 0)]) r) = false.
Proof.
  apply (invalid_params_only_for_required
           (Sample.world (Some "PEM") Sample.ok_app)
           "create_customer_review_response"
           (VObj [("reviewId", VStr "r1"); ("responseBody", VNum 0)])
           Sample.token "reviewId and responseBody are required").
  reflexivity.
Defined.

Lemma switch_result_text w tool args token plan :
  switch w tool args token = inr plan ->
  forall response,
    exists s,
      result plan response
      = {| content := [ {| type := "text"; text := s |} ] |}.
Proof.
  intros H response.
  destruct (String.eqb_spec tool "delete_customer_review_response")
    as [-> | Hne].
  - change (delete_customer_review_response args token = inr plan) in H.
    unfold delete_customer_review_response in H. plan_inv H.
    inversion H. cbn [result]. unfold text_content. eauto.
  - rewrite (switch_result w tool args token plan H Hne).
    unfold json_result, text_content. eauto.
Qed.

Lemma on_error_throws e : exists e', outcome (on_error e) = inl e'.
Proof. destruct e; simpl; eauto. Qed.

(** X18. What a success is.  A call returns a result only after its one
    request was sent and answered with a 2xx status, and the result is a
    single content item of type [text]. *)
Theorem success_is_one_text config w req res :
  outcome (call_tool config w req) = inr res ->
  (exists s, res = {| content := [ {| type := "text"; text := s |} ] |})
  /\ exists r response,
       http_requests (trace (call_tool config w req)) = [r]
       /\ upstream w r = inl response
       /\ 200 <= status response < 300.
Proof.
  intros H.
  pose proof (issuer_sends_nothing config w) as Hnone.
  destruct (generateToken config w) as [t [e0 | token]] eqn:Hg.
  - rewrite (call_tool_issuer_fails config w req Hg) in H. discriminate H.
  - destruct (switch w (name req) (arguments req) token) as [e0 | plan] eqn:Hs.
    + rewrite (call_tool_case_throws config w req Hg Hs) in H.
      discriminate H.
    + rewrite (call_tool_exchange config w req Hg Hs) in *.
      unfold outcome, trace in *. cbn [fst snd] in *.
      unfold http_requests in *. rewrite flat_map_app, Hnone.
      cbn [flat_map app].
      destruct (snd (axios_request w (request plan))) as [e1 | r] eqn:Hax.
      * destruct (on_error_throws e1) as [e' He'].
        unfold outcome in He'. rewrite He' in H. discriminate H.
      * inversion H; subst res. split.
        -- exact (switch_result_text w _ _ token plan Hs r).
        -- exists (request plan), r. split; [reflexivity |].
           unfold axios_request, bind, emit, ret, throw in Hax.
           destruct (upstream w (request plan)) as [r' | m];
             [| discriminate Hax].
           destruct ((200 <=? status r') && (status r' <? 300)) eqn:Hst;
             [| discriminate Hax].
           simpl in Hax. inversion Hax; subst r'.
           apply andb_prop in Hst. destruct Hst as [Hlo Hhi].
           apply Z.leb_le in Hlo. apply Z.ltb_lt in Hhi. auto.
Qed.

Lemma success_is_one_text_witness :
  (exists s,
     {| content :=
          [ {| type := "text";
               text := Some ("Customer review response resp-9 "
                             ++ "deleted successfully.") |} ] |}
     = {| content := [ {| type := "text"; text := s |} ] |})
  /\ exists r response,
       http_requests
         (trace (call_tool Sample.config
                   (Sample.world (Some "PEM") Sample.no_content)
                   {| name := "delete_customer_review_response";
                      arguments := VObj [("responseId", VStr "resp-9")] |}))
       = [r]
       /\ upstream (Sample.world (Some "PEM") Sample.no_content) r
          = inl response
       /\ 200 <= status response < 300.
Proof.
  apply (success_is_one_text Sample.config
           (Sample.world (Some "PEM") Sample.no_content)
           {| name := "delete_customer_review_response";
              arguments := VObj [("responseId", VStr "resp-9")] |}).
  reflexivity.
Defined.







(** X21. Inside the documented range every tool agrees: a numeric [limit]
    from 1 to 200 goes on the request unchanged, for each of the five tools
    that take one. *)
Theorem limit_in_range_forwarded w tool o token plan n :
  In tool limit_tools ->
  1 <= n <= 200 ->
  JS.lookup "limit" o = Some (VNum n) ->
  switch w tool (VObj o) token = inr plan ->
  JS.lookup "limit" (params (request plan)) = Some (VNum n).
Proof.
  intros Hin Hn Hl Hs.
  assert (Hm : JS.member (VObj o) "limit" = VNum n)
    by (cbn [JS.member]; now rewrite Hl).
  assert (Hmin : Z.min n 200 = n) by lia.
  assert (Htruthy : JS.truthy (VNum n) = true)
    by (cbn [JS.truthy]; destruct (Z.eqb_spec n 0); [lia | reflexivity]).
  destruct Hin as [<- | [<- | [<- | [<- | [<- | []]]]]].
  - inversion Hs. cbn [request params http_get JS.lookup String.eqb
                       Ascii.eqb Bool.eqb].
    cbv beta iota. unfold JS.or_else, JS.opt_member. cbn [JS.nullish].
    now rewrite Hm, Htruthy.
  - inversion Hs. cbn [request params http_get JS.lookup String.eqb
                       Ascii.eqb Bool.eqb].
    cbv beta iota. unfold JS.or_else, JS.opt_member. cbn [JS.nullish].
    now rewrite Hm, Htruthy.
  - change (list_users w (VObj o) token = inr plan) in Hs.
    destruct (list_users_spec w (VObj o) token Hs) as (_ & Hlim & _).
    rewrite Hlim. cbn [JS.or_else JS.truthy]. rewrite Hm.
    unfold users_limit. cbn [Number Math_min]. now rewrite Hmin.
  - change (list_customer_reviews w (VObj o) token = inr plan) in Hs.
    apply list_customer_reviews_params in Hs.
    destruct (review_params_spec w (VObj o) Hs) as (_ & _ & Hlim).
    rewrite Hlim, Hm.
    change (review_limit w (VNum n)) with (Some (VNum (Z.min n 200))).
    now rewrite Hmin.
  - change (list_customer_reviews_for_version w (VObj o) token = inr plan)
      in Hs.
    apply list_customer_reviews_for_version_params in Hs.
    destruct (review_params_spec w (VObj o) Hs) as (_ & _ & Hlim).
    rewrite Hlim, Hm.
    change (review_limit w (VNum n)) with (Some (VNum (Z.min n 200))).
    now rewrite Hmin.
Qed.

Lemma limit_in_range_forwarded_witness :
  JS.lookup "limit" [("limit", VNum 25); ("include", VStr "app,betaTesters")]
  = Some (VNum 25).
Proof.
  apply (limit_in_range_forwarded (Sample.world (Some "PEM") Sample.ok_app)
           "list_beta_groups" [("limit", VNum 25)] Sample.token
           {| request :=
                http_get "/betaGroups" Sample.token
                  [("limit", VNum 25); ("include", VStr "app,betaTesters")];
              result := json_result |} 25);
    [simpl; auto | lia | reflexivity | reflexivity].
Defined.
